(** * tfsnippet: shape utilities and the base trainer

    A shallow embedding of [tfsnippet/utils/shape_utils.py] and
    [tfsnippet/trainer/base_trainer.py], with the properties of the
    design document proved about it.

    Python integers are [Z]; a tuple is a [list]; [None] inside a shape
    tuple is [option]; a raised exception is the [Raise] outcome. *)

From Stdlib Require Import ZArith List String Bool Lia.
Import ListNotations.
Open Scope Z_scope.

(** ** Exceptions and outcomes *)

Inductive exception : Type :=
| ValueError (msg : string)
| RuntimeError (msg : string)
| TypeError (msg : string)
| AttributeError (attr : string)
| NotImplementedError
| RecursionError
| OtherError (code : nat).

Inductive outcome (A : Type) : Type :=
| Ok (a : A)
| Raise (e : exception).
Arguments Ok {A} a.
Arguments Raise {A} e.

Definition obind {A B : Type} (m : outcome A) (f : A -> outcome B) : outcome B :=
  match m with
  | Ok a => f a
  | Raise e => Raise e
  end.

Declare Scope outcome_scope.
Delimit Scope outcome_scope with outcome.
Notation "x <- m ;; k" := (obind m (fun x => k))
  (at level 61, m at next level, right associativity) : outcome_scope.

(** ** Python sequences *)

Definition len {T : Type} (l : list T) : Z := Z.of_nat (List.length l).

(** The position a slice bound [i] denotes in a sequence of length [n]:
    a negative bound counts from the end, and both are clipped. *)
Definition slice_bound (n i : Z) : Z :=
  if i <? 0 then Z.max 0 (n + i) else Z.min i n.

(** [l[:i]] *)
Definition slice_to {T : Type} (l : list T) (i : Z) : list T :=
  firstn (Z.to_nat (slice_bound (len l) i)) l.

(** [l[i:]] *)
Definition slice_from {T : Type} (l : list T) (i : Z) : list T :=
  skipn (Z.to_nat (slice_bound (len l) i)) l.

(** [None in shape] *)
Definition none_in (shape : list (option Z)) : bool :=
  existsb (fun d => match d with None => true | Some _ => false end) shape.

Definition product (dims : list Z) : Z := fold_right Z.mul 1 dims.

Lemma len_nonneg {T : Type} (l : list T) : 0 <= len l.
Proof. unfold len; lia. Qed.

Lemma product_app (a b : list Z) : product (a ++ b) = product a * product b.
Proof.
  induction a as [|d r IH]; simpl; [now destruct (product b)|].
  rewrite IH. lia.
Qed.



Lemma len_app {T : Type} (l1 l2 : list T) : len (l1 ++ l2) = len l1 + len l2.
Proof. unfold len; rewrite length_app; lia. Qed.


Lemma slice_bound_range (n i : Z) : 0 <= n -> 0 <= slice_bound n i <= n.
Proof. unfold slice_bound; destruct (i <? 0) eqn:E; lia. Qed.

Lemma len_slice_to {T : Type} (l : list T) (i : Z) :
  len (slice_to l i) = slice_bound (len l) i.
Proof.
  unfold slice_to, len at 1.
  pose proof (slice_bound_range (len l) i (len_nonneg l)) as R.
  rewrite length_firstn. unfold len in *. lia.
Qed.

Lemma len_slice_from {T : Type} (l : list T) (i : Z) :
  len (slice_from l i) = len l - slice_bound (len l) i.
Proof.
  unfold slice_from, len at 1.
  pose proof (slice_bound_range (len l) i (len_nonneg l)) as R.
  rewrite length_skipn. unfold len in *. lia.
Qed.

Lemma none_in_app (a b : list (option Z)) :
  none_in (a ++ b) = none_in a || none_in b.
Proof. unfold none_in; apply existsb_app. Qed.

(** A tuple without [None] is a tuple of integers. *)
Fixpoint as_ints (shape : list (option Z)) : option (list Z) :=
  match shape with
  | [] => Some []
  | Some d :: rest => option_map (cons d) (as_ints rest)
  | None :: _ => None
  end.

Lemma as_ints_none_in (shape : list (option Z)) :
  none_in shape = false -> as_ints shape <> None.
Proof.
  induction shape as [|[d|] rest IH]; simpl; intros H; try discriminate.
  destruct (as_ints rest); simpl; [discriminate | now apply IH].
Qed.

Lemma as_ints_map_Some (dims : list Z) : as_ints (map Some dims) = Some dims.
Proof. induction dims as [|d r IH]; simpl; [reflexivity | now rewrite IH]. Qed.

Lemma as_ints_inv (shape : list (option Z)) (dims : list Z) :
  as_ints shape = Some dims -> shape = map Some dims.
Proof.
  revert dims; induction shape as [|[d|] rest IH]; simpl; intros dims H.
  - now inversion H.
  - destruct (as_ints rest) as [r|] eqn:E; simpl in H; inversion H; subst.
    simpl; f_equal; now apply IH.
  - discriminate.
Qed.

(** ** Shape utilities ([tfsnippet/utils/shape_utils.py]) *)

Module ShapeUtils.

Import ListNotations.
Local Open Scope outcome_scope.

(** *** Tensors of the graph library

    A tensor of the graph carries what is known of its shape when the
    graph is built ([static_shape]: [None] for an unknown number of
    dimensions, a [None] entry for an unknown size), and what it
    evaluates to when the graph is run ([value]: the shape and the
    elements in row-major order, or [None] when the library cannot
    carry the operation out). *)
Record Tensor (A : Type) : Type := mkTensor {
  static_shape : option (list (option Z));
  value : option (list Z * list A)
}.
Arguments mkTensor {A} _ _.
Arguments static_shape {A} _.
Arguments value {A} _.

(** A shape handed around by the utilities: a tuple, or a 1-D integer
    tensor. *)
Inductive py_shape : Type :=
| PyTuple (dims : list (option Z))
| PyTensor (t : Tensor Z).

Definition is_tensor_object (s : py_shape) : bool :=
  match s with
  | PyTensor _ => true
  | PyTuple _ => false
  end.

Definition int_tuple (dims : list Z) : py_shape := PyTuple (map Some dims).

(** A size agrees with what is statically known of it. *)
Definition dim_agrees (s : option Z) (d : Z) : Prop :=
  match s with
  | None => True
  | Some n => n = d
  end.

(** A tensor that evaluates, to a shape of non-negative sizes that
    agrees with its static shape and has one element per position. *)
Definition well_formed {A : Type} (x : Tensor A) : Prop :=
  exists dims data,
    value x = Some (dims, data) /\
    Forall (fun d => 0 <= d) dims /\
    len data = product dims /\
    match static_shape x with
    | None => True
    | Some shape => Forall2 dim_agrees shape dims
    end.

Section Library.

Variable A : Type.

(** The size the library gives to the entry [-1] of a requested shape,
    from the shape of the input and the other requested sizes; [None]
    when it refuses to infer one.  Releases of the library differ on
    empty tensors, so the rule is a parameter. *)
Variable missing_dim : list Z -> list Z -> option Z.

(** [int_shape(tensor)] *)
Definition int_shape {T : Type} (tensor : Tensor T) : option (list (option Z)) :=
  static_shape tensor.

(** [tf.shape(x)] *)
Definition tf_shape {T : Type} (x : Tensor T) : Tensor Z :=
  mkTensor
    (Some [option_map (fun s => len s) (static_shape x)])
    (match value x with
     | Some (dims, _) => Some ([len dims], dims)
     | None => None
     end).

(** [tf.constant(s, dtype=tf.int32)]: a tuple holding [None] does not
    convert.  The sizes are held as they are; the 32-bit integers of
    the library hold them as long as they are below [2^31]. *)
Definition constant_tensor (dims : list Z) : Tensor Z :=
  mkTensor (Some [Some (len dims)]) (Some ([len dims], dims)).

Definition tf_constant (s : list (option Z)) : outcome (Tensor Z) :=
  match as_ints s with
  | Some dims => Ok (constant_tensor dims)
  | None => Raise (TypeError "None values not supported.")
  end.

Definition static_length (t : Tensor Z) : option Z :=
  match static_shape t with
  | Some [Some n] => Some n
  | _ => None
  end.

(** [t[:i]] and [t[i:]] on a 1-D tensor. *)
Definition tensor_slice_to (t : Tensor Z) (i : Z) : Tensor Z :=
  mkTensor
    (Some [option_map (fun n => slice_bound n i) (static_length t)])
    (match value t with
     | Some (_, data) => Some ([len (slice_to data i)], slice_to data i)
     | None => None
     end).

Definition tensor_slice_from (t : Tensor Z) (i : Z) : Tensor Z :=
  mkTensor
    (Some [option_map (fun n => n - slice_bound n i) (static_length t)])
    (match value t with
     | Some (_, data) => Some ([len (slice_from data i)], slice_from data i)
     | None => None
     end).

(** [tf.concat(parts, axis=0)] on 1-D integer tensors. *)
Fixpoint concat_tensors (parts : list (Tensor Z)) : Tensor Z :=
  match parts with
  | [] => mkTensor (Some [Some 0]) (Some ([0], []))
  | t :: rest =>
    let r := concat_tensors rest in
    mkTensor
      (Some [match static_length t, static_length r with
             | Some a, Some b => Some (a + b)
             | _, _ => None
             end])
      (match value t, value r with
       | Some (_, d1), Some (_, d2) => Some ([len (d1 ++ d2)], d1 ++ d2)
       | _, _ => None
       end)
  end.

(** A tensor is kept, a tuple is converted to a constant. *)
Definition as_tensor (p : py_shape) : outcome (Tensor Z) :=
  match p with
  | PyTensor t => Ok t
  | PyTuple s => tf_constant s
  end.

Fixpoint to_tensors (parts : list py_shape) : outcome (list (Tensor Z)) :=
  match parts with
  | [] => Ok []
  | p :: rest =>
    t <- as_tensor p ;;
    ts <- to_tensors rest ;;
    Ok (t :: ts)
  end.

(** [tf.concat] given tuples and tensors: the tuples are converted. *)
Definition tf_concat (parts : list py_shape) : outcome (Tensor Z) :=
  ts <- to_tensors parts ;;
  Ok (concat_tensors ts).

(** What a reshape to [sizes] evaluates to on an input of shape [dims]:
    at most one size is [-1], the others are non-negative, and the
    element count is kept. *)
Definition resolve_sizes (dims sizes : list Z) : option (list Z) :=
  let others := filter (fun s => negb (s =? -1)) sizes in
  let resolved :=
    match Z.of_nat (List.length sizes) - Z.of_nat (List.length others) with
    | 0 => Some sizes
    | 1 => match missing_dim dims others with
           | Some m => Some (map (fun s => if s =? -1 then m else s) sizes)
           | None => None
           end
    | _ => None
    end in
  match resolved with
  | Some out =>
    if forallb (fun s => 0 <=? s) out && (product out =? product dims)
    then Some out else None
  | None => None
  end.

Definition reshape_value (v : option (list Z * list A)) (sizes : option (list Z))
  : option (list Z * list A) :=
  match v, sizes with
  | Some (dims, data), Some sizes =>
    match resolve_sizes dims sizes with
    | Some out => Some (out, data)
    | None => None
    end
  | _, _ => None
  end.

Definition fully_defined (shape : option (list (option Z))) : option (list Z) :=
  match shape with
  | Some s => as_ints s
  | None => None
  end.

(** [tf.reshape(x, sizes)] with [sizes] a Python list.  (The error of
    the library for a request that the statically known sizes already
    rule out is left out: [flatten] asks for sizes of [x] itself, and
    [unflatten], on what [flatten] returned, for the shape of [x].) *)
Definition tf_reshape (x : Tensor A) (sizes : list (option Z)) : outcome (Tensor A) :=
  match as_ints sizes with
  | None => Raise (TypeError "None values not supported.")
  | Some ints =>
    let inferred :=
      match fully_defined (static_shape x) with
      | Some dims => missing_dim dims (filter (fun s => negb (s =? -1)) ints)
      | None => None
      end in
    Ok (mkTensor
          (Some (map (fun s => if s =? -1 then inferred else Some s) ints))
          (reshape_value (value x) (Some ints)))
  end.

(** [tf.reshape(x, sizes)] with [sizes] a tensor: of the result only
    the number of dimensions is taken as known when the graph is built.
    (The library also keeps the sizes it can read off [sizes]; both
    [flatten] and [unflatten] set the static shape right after.) *)
Definition tf_reshape_dynamic (x : Tensor A) (sizes : Tensor Z) : Tensor A :=
  mkTensor
    (match static_length sizes with
     | Some n => Some (repeat None (Z.to_nat n))
     | None => None
     end)
    (reshape_value (value x) (option_map snd (value sizes))).

(** [TensorShape.merge_with] on one size. *)
Definition merge_dim (a b : option Z) : option (option Z) :=
  match a, b with
  | None, _ => Some b
  | _, None => Some a
  | Some m, Some n => if m =? n then Some a else None
  end.

Fixpoint merge_dims (a b : list (option Z)) : option (list (option Z)) :=
  match a, b with
  | [], [] => Some []
  | x :: a', y :: b' =>
    match merge_dim x y, merge_dims a' b' with
    | Some d, Some r => Some (d :: r)
    | _, _ => None
    end
  | _, _ => None
  end.

(** [x.set_shape(tf.TensorShape(shape))] *)
Definition set_shape (x : Tensor A) (shape : list (option Z)) : outcome (Tensor A) :=
  match static_shape x with
  | None => Ok (mkTensor (Some shape) (value x))
  | Some old =>
    match merge_dims old shape with
    | Some merged => Ok (mkTensor (Some merged) (value x))
    | None => Raise (ValueError "Shapes are not compatible.")
    end
  end.

(** *** [flatten] and [unflatten] *)

(** [flatten(x, k)]: the flattened tensor, the static front shape and
    the front shape; or the tensor itself with two [None]. *)
Definition flatten (x : Tensor A) (k : Z)
  : outcome (Tensor A * option (list (option Z)) * option py_shape) :=
  if k <? 1 then Raise (ValueError "`k` must be greater or equal to 1.") else
  (* [not x.get_shape()] and [int_shape(x)] read the same static shape *)
  match int_shape x with
  | None =>
    Raise (ValueError "`x` is required to have known number of dimensions.")
  | Some shape =>
    if len shape <? k then
      Raise (ValueError "`k` is {}, but `x` only has rank {}.")
    else if len shape =? k then Ok (x, None, None)
    else if k =? 1 then
      let static_shape_x := shape in
      let shape :=
        if none_in shape then PyTensor (tf_shape x) else PyTuple shape in
      y <- tf_reshape x [Some (-1)] ;;
      Ok (y, Some static_shape_x, Some shape)
    else
      let front_shape := slice_to shape (- (k - 1)) in
      let back_shape := slice_from shape (- (k - 1)) in
      let static_front_shape := front_shape in
      let static_back_shape := back_shape in
      let dynamic_shape := tf_shape x in
      let front_shape :=
        if none_in front_shape
        then PyTensor (tensor_slice_to dynamic_shape (- (k - 1)))
        else PyTuple front_shape in
      let back_shape :=
        if none_in back_shape
        then PyTensor (tensor_slice_from dynamic_shape (- (k - 1)))
        else PyTuple back_shape in
      match back_shape with
      | PyTuple back =>
        y <- tf_reshape x (Some (-1) :: back) ;;
        Ok (y, Some static_front_shape, Some front_shape)
      | PyTensor back =>
        sizes <- tf_concat [PyTuple [Some (-1)]; PyTensor back] ;;
        y <- set_shape (tf_reshape_dynamic x sizes) (None :: static_back_shape) ;;
        Ok (y, Some static_front_shape, Some front_shape)
      end
  end.

(** [list(v)] and [tuple(v)] of a value that may be [None]. *)
Definition py_list {T : Type} (v : option T) : outcome T :=
  match v with
  | Some t => Ok t
  | None => Raise (TypeError "'NoneType' object is not iterable")
  end.

(** [unflatten(x, static_front_shape, front_shape)] *)
Definition unflatten (x : Tensor A) (static_front_shape : option (list (option Z)))
  (front_shape : option py_shape) : outcome (Tensor A) :=
  match static_front_shape, front_shape with
  | None, None => Ok x
  | _, _ =>
    match int_shape x with
    | None =>
      Raise (ValueError "`x` is required to have known number of dimensions.")
    | Some shape =>
      if len shape <? 1 then
        Raise (ValueError "`x` only has rank {}, required at least 1.")
      else
        (* a tensor is kept, a tuple is copied, [tuple(None)] raises *)
        front_shape <- py_list front_shape ;;
        let back_shape := slice_from shape 1 in
        let static_back_shape := back_shape in
        let back_shape :=
          if none_in back_shape
          then PyTensor (tensor_slice_from (tf_shape x) 1)
          else PyTuple back_shape in
        match front_shape, back_shape with
        | PyTuple front, PyTuple back => tf_reshape x (front ++ back)
        | _, _ =>
          sizes <- tf_concat [front_shape; back_shape] ;;
          let y := tf_reshape_dynamic x sizes in
          static_front <- py_list static_front_shape ;;
          set_shape y (static_front ++ static_back_shape)
        end
    end
  end.

(** *** Properties of [flatten] and [unflatten] *)

Lemma merge_dims_unknown (l : list (option Z)) :
  merge_dims (repeat None (List.length l)) l = Some l.
Proof. induction l as [|d r IH]; simpl; [reflexivity | now rewrite IH]. Qed.

Lemma set_shape_unknown (x : Tensor A) (n : Z) (shape : list (option Z)) :
  static_shape x = Some (repeat None (Z.to_nat n)) ->
  n = len shape ->
  set_shape x shape = Ok (mkTensor (Some shape) (value x)).
Proof.
  intros Hs Hn. unfold set_shape. rewrite Hs, Hn.
  unfold len. rewrite Nat2Z.id, merge_dims_unknown. reflexivity.
Qed.

(** The elements of a 1-D integer tensor. *)
Definition data_of (t : Tensor Z) : option (list Z) := option_map snd (value t).

Lemma static_length_tf_shape {T : Type} (x : Tensor T) (shape : list (option Z)) :
  static_shape x = Some shape ->
  static_length (tf_shape x) = Some (len shape).
Proof. intros H. unfold static_length, tf_shape; simpl. now rewrite H. Qed.

Lemma data_of_tf_shape {T : Type} (x : Tensor T) :
  data_of (tf_shape x) = option_map fst (value x).
Proof. unfold data_of, tf_shape; simpl. now destruct (value x) as [[d e]|]. Qed.

Lemma static_length_slice_from (t : Tensor Z) (i : Z) :
  static_length (tensor_slice_from t i) =
  option_map (fun n => n - slice_bound n i) (static_length t).
Proof.
  unfold static_length at 1; simpl. now destruct (static_length t).
Qed.

Lemma static_length_slice_to (t : Tensor Z) (i : Z) :
  static_length (tensor_slice_to t i) =
  option_map (fun n => slice_bound n i) (static_length t).
Proof.
  unfold static_length at 1; simpl. now destruct (static_length t).
Qed.

Lemma data_of_slice_from (t : Tensor Z) (i : Z) :
  data_of (tensor_slice_from t i) =
  option_map (fun d => slice_from d i) (data_of t).
Proof. unfold data_of, tensor_slice_from; simpl. now destruct (value t) as [[d e]|]. Qed.

Lemma data_of_slice_to (t : Tensor Z) (i : Z) :
  data_of (tensor_slice_to t i) =
  option_map (fun d => slice_to d i) (data_of t).
Proof. unfold data_of, tensor_slice_to; simpl. now destruct (value t) as [[d e]|]. Qed.


Lemma data_of_constant (dims : list Z) : data_of (constant_tensor dims) = Some dims.
Proof. reflexivity. Qed.

Lemma static_length_concat2 (a b : Tensor Z) (m n : Z) :
  static_length a = Some m ->
  static_length b = Some n ->
  static_length (concat_tensors [a; b]) = Some (m + n).
Proof.
  intros Ha Hb. unfold static_length at 1. simpl.
  rewrite Ha. unfold static_length at 1. simpl. rewrite Hb.
  f_equal. lia.
Qed.

Lemma data_of_concat2 (a b : Tensor Z) (da db : list Z) :
  data_of a = Some da ->
  data_of b = Some db ->
  data_of (concat_tensors [a; b]) = Some (da ++ db).
Proof.
  unfold data_of; simpl.
  destruct (value a) as [[sa ea]|], (value b) as [[sb eb]|]; simpl;
    intros Ha Hb; inversion Ha; inversion Hb; subst.
  now rewrite app_nil_r.
Qed.

Lemma tf_concat_pair (p q : py_shape) :
  tf_concat [p; q] =
  (a <- as_tensor p ;; b <- as_tensor q ;; Ok (concat_tensors [a; b])).
Proof.
  unfold tf_concat; simpl.
  destruct (as_tensor p); simpl; [|reflexivity].
  destruct (as_tensor q); reflexivity.
Qed.

Lemma as_tensor_ints (dims : list Z) :
  as_tensor (PyTuple (map Some dims)) = Ok (constant_tensor dims).
Proof. simpl. unfold tf_constant. now rewrite as_ints_map_Some. Qed.

(** The bound of the slices [shape[:-(k-1)]] and [shape[-(k-1):]]. *)
Lemma front_bound (r k : Z) : 1 < k < r -> slice_bound r (- (k - 1)) = r - (k - 1).
Proof.
  intros H. unfold slice_bound.
  destruct (- (k - 1) <? 0) eqn:E; lia.
Qed.

Lemma none_in_as_ints (shape : list (option Z)) :
  none_in shape = false -> exists dims, as_ints shape = Some dims.
Proof.
  intros H. destruct (as_ints shape) as [dims|] eqn:E; [now exists dims|].
  now apply as_ints_none_in in H.
Qed.

Lemma Forall2_len {T U : Type} (P : T -> U -> Prop) (l1 : list T) (l2 : list U) :
  Forall2 P l1 l2 -> len l1 = len l2.
Proof. intros H. unfold len. now rewrite (Forall2_length H). Qed.


Lemma Forall2_slice_from {T U : Type} (P : T -> U -> Prop) (l1 : list T)
  (l2 : list U) (i : Z) :
  Forall2 P l1 l2 -> Forall2 P (slice_from l1 i) (slice_from l2 i).
Proof.
  intros H. unfold slice_from. rewrite <- (Forall2_len P l1 l2 H).
  generalize (Z.to_nat (slice_bound (len l1) i)) as n.
  induction H; intros [|n]; simpl; auto.
Qed.


Lemma Forall_slice_from {T : Type} (P : T -> Prop) (l : list T) (i : Z) :
  Forall P l -> Forall P (slice_from l i).
Proof.
  intros H. unfold slice_from.
  generalize (Z.to_nat (slice_bound (len l) i)) as n.
  induction H; intros [|n]; simpl; auto.
Qed.

(** A static shape without [None] that agrees with the sizes is the
    sizes themselves. *)
Lemma as_ints_agrees (shape : list (option Z)) (dims ints : list Z) :
  Forall2 dim_agrees shape dims -> as_ints shape = Some ints -> ints = dims.
Proof.
  intros H; revert ints; induction H as [|s d shape dims Hd H IH]; simpl; intros ints E.
  - now inversion E.
  - destruct s as [n|]; [|discriminate].
    destruct (as_ints shape) as [r|]; simpl in E; inversion E; subst.
    simpl in Hd; subst. f_equal. now apply IH.
Qed.

Lemma map_keep_sizes (m : option Z) (dims : list Z) :
  Forall (fun d => 0 <= d) dims ->
  map (fun s => if s =? -1 then m else Some s) dims = map Some dims.
Proof.
  induction 1 as [|d r Hd H IH]; simpl; [reflexivity|].
  rewrite IH. destruct (d =? -1) eqn:E; [lia | reflexivity].
Qed.

(** [flatten] returns whenever its three checks pass; this is what it
    builds when it has to reshape to more than one dimension: the static
    shape keeps the back dimensions after one leading dimension, and the
    value is that of a reshape to [-1] followed by the back sizes. *)
Lemma flatten_general (x : Tensor A) (shape : list (option Z)) (k : Z) :
  static_shape x = Some shape ->
  1 < k < len shape ->
  exists y,
    flatten x k =
      Ok (y, Some (slice_to shape (- (k - 1))),
          Some (if none_in (slice_to shape (- (k - 1)))
                then PyTensor (tensor_slice_to (tf_shape x) (- (k - 1)))
                else PyTuple (slice_to shape (- (k - 1))))) /\
    (forall dims data,
        value x = Some (dims, data) ->
        Forall2 dim_agrees shape dims ->
        Forall (fun d => 0 <= d) dims ->
        (exists s0, static_shape y = Some (s0 :: slice_from shape (- (k - 1)))) /\
        value y =
          reshape_value (value x) (Some (-1 :: slice_from dims (- (k - 1))))).
Proof.
  intros Hs Hk.
  pose proof (front_bound (len shape) k Hk) as Hb.
  unfold flatten, int_shape. rewrite Hs.
  destruct (k <? 1) eqn:E1; [lia|].
  destruct (len shape <? k) eqn:E2; [lia|].
  destruct (len shape =? k) eqn:E3; [lia|].
  destruct (k =? 1) eqn:E4; [lia|].
  cbv zeta.
  set (front := slice_to shape (- (k - 1))).
  set (back := slice_from shape (- (k - 1))).
  destruct (none_in back) eqn:Eb.
  - rewrite tf_concat_pair.
    change [Some (-1)] with (map Some [-1]). rewrite as_tensor_ints.
    cbn [obind as_tensor].
    set (sizes := concat_tensors _).
    assert (Hlen : static_length sizes = Some (1 + len back)).
    { apply static_length_concat2; [reflexivity|].
      rewrite static_length_slice_from, (static_length_tf_shape x shape Hs).
      simpl. rewrite Hb. unfold back. rewrite len_slice_from, Hb. reflexivity. }
    rewrite (set_shape_unknown _ (1 + len back));
      [ | unfold tf_reshape_dynamic; simpl; now rewrite Hlen
        | change (None :: back) with ([@None Z] ++ back); now rewrite len_app ].
    cbn [obind]. eexists; split; [reflexivity|].
    intros dims data Hv Hagree Hpos. split; [now exists None|].
    cbn [value tf_reshape_dynamic]. f_equal.
    change (option_map snd (value sizes)) with (data_of sizes).
    change (-1 :: slice_from dims (- (k - 1))) with ([-1] ++ slice_from dims (- (k - 1))).
    apply data_of_concat2; [reflexivity|].
    rewrite data_of_slice_from, data_of_tf_shape, Hv. reflexivity.
  - destruct (none_in_as_ints back Eb) as [ints Hints].
    unfold tf_reshape. cbn [as_ints]. rewrite Hints. cbn [option_map obind].
    eexists; split; [reflexivity|].
    intros dims data Hv Hagree Hpos. cbn [static_shape value].
    assert (ints = slice_from dims (- (k - 1))) as ->.
    { eapply as_ints_agrees; [|exact Hints].
      now apply Forall2_slice_from. }
    split; [|reflexivity].
    cbn [map]. rewrite map_keep_sizes by now apply Forall_slice_from.
    rewrite <- (as_ints_inv back _ Hints). eexists; reflexivity.
Qed.

Lemma flatten_one (x : Tensor A) (shape : list (option Z)) :
  static_shape x = Some shape ->
  1 < len shape ->
  exists s0,
    flatten x 1 =
      Ok (mkTensor (Some [s0]) (reshape_value (value x) (Some [-1])),
          Some shape,
          Some (if none_in shape then PyTensor (tf_shape x) else PyTuple shape)).
Proof.
  intros Hs Hr. unfold flatten, int_shape. rewrite Hs.
  destruct (len shape <? 1) eqn:E2; [lia|].
  destruct (len shape =? 1) eqn:E3; [lia|].
  simpl. eexists; reflexivity.
Qed.

(** When the rank is [k] there is nothing to flatten. *)
Lemma flatten_same_rank (x : Tensor A) (shape : list (option Z)) (k : Z) :
  1 <= k -> static_shape x = Some shape -> len shape = k ->
  flatten x k = Ok (x, None, None).
Proof.
  intros Hk Hs Hr. unfold flatten, int_shape. rewrite Hs.
  destruct (k <? 1) eqn:E1; [lia|].
  destruct (len shape <? k) eqn:E2; [lia|].
  destruct (len shape =? k) eqn:E3; [reflexivity | lia].
Qed.

(** C8. [flatten(x, k)] raises exactly when [k < 1], or the number of
    dimensions of [x] is not known statically, or the static rank of [x]
    is less than [k], and what it raises is a [ValueError]; otherwise it
    returns, and when the rank equals [k] it returns [(x, None, None)]
    with [x] unchanged. *)
Theorem flatten_raises (x : Tensor A) (k : Z) :
  ((exists e, flatten x k = Raise e) <->
   (k < 1 \/ static_shape x = None \/
    exists shape, static_shape x = Some shape /\ len shape < k)) /\
  (forall e, flatten x k = Raise e -> exists msg, e = ValueError msg) /\
  (forall shape,
     1 <= k -> static_shape x = Some shape -> len shape = k ->
     flatten x k = Ok (x, None, None)).
Proof.
  destruct (static_shape x) as [shape|] eqn:Hs.
  - destruct (Z.lt_ge_cases k 1) as [Hk|Hk].
    + assert (E : flatten x k = Raise (ValueError "`k` must be greater or equal to 1."))
        by (unfold flatten; destruct (k <? 1) eqn:E1; [reflexivity | lia]).
      rewrite E. repeat split; try lia; eauto.
      intros e He; inversion He; eauto.
    + destruct (Z.lt_ge_cases (len shape) k) as [Hr|Hr].
      * assert (E : flatten x k =
                    Raise (ValueError "`k` is {}, but `x` only has rank {}.")).
        { unfold flatten, int_shape. rewrite Hs.
          destruct (k <? 1) eqn:E1; [lia|].
          destruct (len shape <? k) eqn:E2; [reflexivity | lia]. }
        rewrite E. repeat split; try lia; eauto.
        -- intros e He; inversion He; eauto.
        -- intros shape' _ Hs'; inversion Hs'; subst; lia.
      * assert (E : exists r, flatten x k = Ok r /\
                              (len shape = k -> r = (x, None, None))).
        { destruct (Z.eq_dec (len shape) k) as [Heq|Hne].
          - exists (x, None, None). split; [|reflexivity].
            now apply (flatten_same_rank x shape k).
          - destruct (Z.eq_dec k 1) as [->|Hk1].
            + destruct (flatten_one x shape Hs) as [s0 E]; [lia|].
              rewrite E. eexists; split; [reflexivity | lia].
            + destruct (flatten_general x shape k Hs) as [y [E _]]; [lia|].
              rewrite E. eexists; split; [reflexivity | lia]. }
        destruct E as [r [E Hr']]. rewrite E. repeat split.
        -- intros [e He]; discriminate.
        -- intros [H|[H|[shape' [H1 H2]]]]; try lia; try discriminate.
           inversion H1; subst; lia.
        -- intros e He; discriminate.
        -- intros shape' _ Hs' Hlen; inversion Hs'; subst.
           now rewrite Hr'.
  - assert (E : flatten x k = Raise (ValueError "`k` must be greater or equal to 1.") \/
                flatten x k = Raise (ValueError
                  "`x` is required to have known number of dimensions.")).
    { unfold flatten, int_shape. rewrite Hs. destruct (k <? 1); auto. }
    repeat split.
    + intros _. right; left; reflexivity.
    + intros _. destruct E as [E|E]; rewrite E; eauto.
    + intros e He. destruct E as [E|E]; rewrite E in He; inversion He; eauto.
    + intros shape _ Hs'; discriminate.
Qed.


(** *** The round trip *)

Lemma filter_sizes_nonneg (sizes : list Z) :
  Forall (fun d => 0 <= d) sizes ->
  filter (fun s => negb (s =? -1)) sizes = sizes.
Proof.
  induction 1 as [|d r Hd H IH]; simpl; [reflexivity|].
  destruct (d =? -1) eqn:E; [lia|]. simpl. now rewrite IH.
Qed.

Lemma map_sizes_nonneg (m : Z) (sizes : list Z) :
  Forall (fun d => 0 <= d) sizes ->
  map (fun s => if s =? -1 then m else s) sizes = sizes.
Proof.
  induction 1 as [|d r Hd H IH]; simpl; [reflexivity|].
  destruct (d =? -1) eqn:E; [lia|]. now rewrite IH.
Qed.



(** A reshape to [-1] followed by [back], when the library carries it
    out, gives one leading size followed by [back], with the element
    count kept. *)
Lemma resolve_sizes_flat (dims back out : list Z) :
  Forall (fun d => 0 <= d) back ->
  resolve_sizes dims (-1 :: back) = Some out ->
  exists m, out = m :: back /\ product out = product dims.
Proof.
  intros Hpos. unfold resolve_sizes.
  assert (Hf : filter (fun s => negb (s =? -1)) (-1 :: back) = back)
    by (simpl; now apply filter_sizes_nonneg).
  rewrite Hf.
  replace (Z.of_nat (List.length (-1 :: back)) - Z.of_nat (List.length back))
    with 1 by (simpl List.length; lia).
  destruct (missing_dim dims back) as [m|]; cbv beta iota; [|discriminate].
  assert (Hm : map (fun s => if s =? -1 then m else s) (-1 :: back) = m :: back)
    by (simpl; f_equal; now apply map_sizes_nonneg).
  rewrite Hm.
  destruct (forallb (fun s => 0 <=? s) (m :: back) &&
            (product (m :: back) =? product dims)) eqn:E; [|discriminate].
  intros H; inversion H; subst. exists m. split; [reflexivity|].
  apply andb_true_iff in E. now apply Z.eqb_eq.
Qed.


Lemma reshape_value_flat (dims back : list Z) (data : list A) :
  Forall (fun d => 0 <= d) back ->
  reshape_value (Some (dims, data)) (Some (-1 :: back)) <> None ->
  exists m,
    reshape_value (Some (dims, data)) (Some (-1 :: back)) = Some (m :: back, data) /\
    product (m :: back) = product dims.
Proof.
  intros Hpos. unfold reshape_value.
  destruct (resolve_sizes dims (-1 :: back)) as [out|] eqn:E; [|congruence].
  intros _. destruct (resolve_sizes_flat dims back out Hpos E) as [m [-> Hm]].
  now exists m.
Qed.

(** A front shape as [flatten] hands it out for the static sizes [sf]
    and the sizes [df]: the tuple [sf] when it has no [None], or a
    tensor of that length holding [df]. *)
Definition denotes (p : py_shape) (sf : list (option Z)) (df : list Z) : Prop :=
  (none_in sf = false /\ p = PyTuple sf) \/
  (exists t, p = PyTensor t /\ static_length t = Some (len sf) /\
             data_of t = Some df).









End Library.

(** *** [resolve_negative_axis] *)

Definition axis_out_of_range : exception :=
  ValueError "`axis` out of range: {} vs ndims {}.".

(** The loop of [resolve_negative_axis], [ret] being the list built so
    far. *)
Fixpoint resolve_loop (ndims : Z) (axis ret : list Z) : outcome (list Z) :=
  match axis with
  | [] => Ok ret
  | a :: rest =>
    let a := if a <? 0 then a + ndims else a in
    if (a <? 0) || (a >=? ndims) then Raise axis_out_of_range
    else resolve_loop ndims rest (ret ++ [a])
  end.

Definition resolve_negative_axis (ndims : Z) (axis : list Z) : outcome (list Z) :=
  resolve_loop ndims axis [].

(** *** [concat_shapes] *)

(** [tuple(s)] of a shape tuple ([concat_shapes] applies it to tuples
    only). *)
Definition tuple (s : py_shape) : list (option Z) :=
  match s with
  | PyTuple dims => dims
  | PyTensor _ => []
  end.

(** [sum(items, start)] on tuples. *)
Definition py_sum {T : Type} (items : list (list T)) (start : list T) : list T :=
  fold_left (fun acc s => acc ++ s) items start.

Definition concat_shapes (shapes : list py_shape) : outcome py_shape :=
  if existsb is_tensor_object shapes then
    shapes <- to_tensors shapes ;;
    Ok (PyTensor (concat_tensors shapes))
  else
    Ok (PyTuple (py_sum (map tuple shapes) [])).

(** *** Properties of [resolve_negative_axis] *)

(** The index a (possibly negative) axis stands for. *)
Definition resolved_index (ndims a : Z) : Z :=
  if a <? 0 then a + ndims else a.

Definition in_range (ndims i : Z) : bool := (0 <=? i) && (i <? ndims).

Lemma in_range_iff (ndims i : Z) : in_range ndims i = true <-> 0 <= i < ndims.
Proof. unfold in_range; rewrite andb_true_iff; lia. Qed.

Lemma resolve_loop_eq (ndims : Z) (axis ret : list Z) :
  resolve_loop ndims axis ret =
  if forallb (in_range ndims) (map (resolved_index ndims) axis)
  then Ok (ret ++ map (resolved_index ndims) axis)
  else Raise axis_out_of_range.
Proof.
  revert ret; induction axis as [|a rest IH]; intros ret; simpl.
  - now rewrite app_nil_r.
  - fold (resolved_index ndims a).
    replace ((resolved_index ndims a <? 0) || (resolved_index ndims a >=? ndims))
      with (negb (in_range ndims (resolved_index ndims a)))
      by (unfold in_range; destruct (resolved_index ndims a <? 0) eqn:E1,
            (resolved_index ndims a >=? ndims) eqn:E2,
            (0 <=? resolved_index ndims a) eqn:E3,
            (resolved_index ndims a <? ndims) eqn:E4; simpl; try reflexivity; lia).
    destruct (in_range ndims (resolved_index ndims a)); simpl; [|reflexivity].
    rewrite IH, <- app_assoc; reflexivity.
Qed.

Lemma forallb_in_range (ndims : Z) (l : list Z) :
  forallb (in_range ndims) l = true <-> Forall (fun i => 0 <= i < ndims) l.
Proof.
  rewrite forallb_forall, Forall_forall.
  split; intros H i Hi; apply in_range_iff; auto.
Qed.

Lemma not_forallb_in_range (ndims : Z) (l : list Z) :
  forallb (in_range ndims) l = false <-> Exists (fun i => ~ (0 <= i < ndims)) l.
Proof.
  induction l as [|i r IH]; simpl.
  - split; [discriminate | intros H; inversion H].
  - rewrite andb_false_iff, Exists_cons, IH.
    assert (E : in_range ndims i = false <-> ~ (0 <= i < ndims)).
    { rewrite <- in_range_iff. destruct (in_range ndims i); split; congruence. }
    tauto.
Qed.

(** C9. [resolve_negative_axis(ndims, axis)] returns the tuple in which
    every negative element [a] is replaced by [a + ndims], in the same
    order and of the same length; it raises, and then a [ValueError],
    exactly when some resolved element lies outside [0, ndims); every
    index of a returned tuple lies in [0, ndims). *)
Theorem resolve_negative_axis_spec (ndims : Z) (axis : list Z) :
  let resolved := map (resolved_index ndims) axis in
  (resolve_negative_axis ndims axis = Ok resolved <->
   Forall (fun i => 0 <= i < ndims) resolved) /\
  ((exists e, resolve_negative_axis ndims axis = Raise e) <->
   Exists (fun i => ~ (0 <= i < ndims)) resolved) /\
  (forall e, resolve_negative_axis ndims axis = Raise e ->
             exists msg, e = ValueError msg) /\
  (forall ret, resolve_negative_axis ndims axis = Ok ret ->
               ret = resolved /\
               List.length ret = List.length axis /\
               Forall (fun i => 0 <= i < ndims) ret).
Proof.
  intros resolved. unfold resolve_negative_axis.
  rewrite resolve_loop_eq. fold resolved. simpl app.
  destruct (forallb (in_range ndims) resolved) eqn:E.
  - pose proof (proj1 (forallb_in_range ndims resolved) E) as HF.
    repeat split.
    + intros _; exact HF.
    + intros [e He]; discriminate.
    + intros HE. apply not_forallb_in_range in HE. congruence.
    + intros e He; discriminate.
    + congruence.
    + inversion H; subst. unfold resolved. now rewrite length_map.
    + inversion H; subst; exact HF.
  - pose proof (proj1 (not_forallb_in_range ndims resolved) E) as HE.
    repeat split; try discriminate.
    + intros HF. apply forallb_in_range in HF. congruence.
    + intros _; exact HE.
    + intros _. eexists; reflexivity.
    + intros e He; inversion He; subst. eexists; reflexivity.
Qed.

(** *** Properties of [concat_shapes] *)

Lemma py_sum_concat {T : Type} (items : list (list T)) (start : list T) :
  py_sum items start = start ++ List.concat items.
Proof.
  unfold py_sum. revert start; induction items as [|s r IH]; intros start; simpl.
  - now rewrite app_nil_r.
  - rewrite IH, <- app_assoc; reflexivity.
Qed.

Lemma concat_shapes_tuples (ss : list (list (option Z))) :
  concat_shapes (map PyTuple ss) = Ok (PyTuple (List.concat ss)).
Proof.
  unfold concat_shapes.
  assert (E : existsb is_tensor_object (map PyTuple ss) = false)
    by (induction ss; simpl; auto).
  rewrite E, py_sum_concat, map_map, map_id. reflexivity.
Qed.

Lemma concat_map_Some (ss : list (list Z)) :
  List.concat (map (map Some) ss) = map (@Some Z) (List.concat ss).
Proof. now rewrite concat_map. Qed.

(** C10. On shapes that are plain tuples of integers [concat_shapes]
    returns their left-to-right concatenation: the empty sequence gives
    the empty tuple, and the result on [ss1 ++ ss2] is the result on
    [ss1] followed by the result on [ss2]. *)
Theorem concat_shapes_homomorphism :
  concat_shapes [] = Ok (PyTuple []) /\
  (forall ss : list (list Z),
     concat_shapes (map int_tuple ss) = Ok (int_tuple (List.concat ss))) /\
  (forall ss1 ss2 : list (list Z),
     exists t1 t2,
       concat_shapes (map int_tuple ss1) = Ok (PyTuple t1) /\
       concat_shapes (map int_tuple ss2) = Ok (PyTuple t2) /\
       concat_shapes (map int_tuple (ss1 ++ ss2)) = Ok (PyTuple (t1 ++ t2))).
Proof.
  assert (H : forall ss : list (list Z),
             concat_shapes (map int_tuple ss) = Ok (int_tuple (List.concat ss))).
  { intros ss. unfold int_tuple.
    rewrite <- concat_map_Some, <- concat_shapes_tuples, map_map. reflexivity. }
  split; [reflexivity | split; [exact H |]].
  intros ss1 ss2.
  exists (map Some (List.concat ss1)), (map Some (List.concat ss2)).
  rewrite !H. unfold int_tuple.
  now rewrite concat_app, map_app.
Qed.

(** *** A run of the round trip *)

(** The rule of older releases: the exact quotient, refused when the
    other sizes multiply to zero. *)
Definition exact_division (dims others : list Z) : option Z :=
  if product others =? 0 then None else Some (product dims / product others).

(** A tensor of shape [(2, 3, 2)] whose middle size is not known
    statically. *)
Definition sample : Tensor Z :=
  mkTensor (Some [Some 2; None; Some 2])
           (Some ([2; 3; 2], [1; 2; 3; 4; 5; 6; 7; 8; 9; 10; 11; 12])).

Lemma sample_well_formed : well_formed sample.
Proof.
  exists [2; 3; 2], [1; 2; 3; 4; 5; 6; 7; 8; 9; 10; 11; 12].
  split; [reflexivity|]. split; [repeat constructor; lia|].
  split; [reflexivity|]. simpl. repeat constructor.
Defined.

Example flatten_sample :
  flatten Z exact_division sample 2 =
  Ok (mkTensor (Some [None; Some 2])
               (Some ([6; 2], [1; 2; 3; 4; 5; 6; 7; 8; 9; 10; 11; 12])),
      Some [Some 2; None],
      Some (PyTensor (mkTensor (Some [Some 2]) (Some ([2], [2; 3]))))).
Proof. reflexivity. Qed.

Example unflatten_sample :
  unflatten Z exact_division
    (mkTensor (Some [None; Some 2])
              (Some ([6; 2], [1; 2; 3; 4; 5; 6; 7; 8; 9; 10; 11; 12])))
    (Some [Some 2; None])
    (Some (PyTensor (mkTensor (Some [Some 2]) (Some ([2], [2; 3]))))) =
  Ok sample.
Proof. reflexivity. Qed.

(** The rule of the current releases: the exact quotient, and when the
    request holds a size of zero the sizes of zero are left out of both
    products, so that an empty tensor is reshaped to an empty tensor. *)
Definition nonzero (sizes : list Z) : list Z :=
  filter (fun d => negb (d =? 0)) sizes.

Definition inferred_size (dims others : list Z) : option Z :=
  if existsb (Z.eqb 0) others then
    if existsb (Z.eqb 0) dims
    then Some (product (nonzero dims) / product (nonzero others))
    else None
  else
    let m := product dims / product others in
    if m * product others =? product dims then Some m else None.



(** An empty tensor, of shape [(2, 3, 0)]. *)
Definition empty_sample : Tensor Z :=
  mkTensor (Some [Some 2; None; Some 0]) (Some ([2; 3; 0], [])).


Example flatten_empty_sample :
  flatten Z inferred_size empty_sample 2 =
  Ok (mkTensor (Some [None; Some 0]) (Some ([6; 0], [])),
      Some [Some 2; None],
      Some (PyTensor (mkTensor (Some [Some 2]) (Some ([2], [2; 3]))))) /\
  unflatten Z inferred_size
    (mkTensor (Some [None; Some 0]) (Some ([6; 0], [])))
    (Some [Some 2; None])
    (Some (PyTensor (mkTensor (Some [Some 2]) (Some ([2], [2; 3]))))) =
  Ok empty_sample.
Proof. split; reflexivity. Qed.

(** A release that refuses to infer a size beside a size of zero does
    not satisfy [infers_missing_size]: the flattened empty tensor cannot
    be evaluated there. *)
Example flatten_empty_sample_refused :
  exists y sfs fs,
    flatten Z exact_division empty_sample 2 = Ok (y, sfs, fs) /\
    value y = None.
Proof. do 3 eexists. split; reflexivity. Qed.



(** *** The other shape helpers *)

(** [IndexError]: it has no constructor of its own among the
    exceptions. *)
Definition IndexError : exception := OtherError 0.

(** The position the index [i] denotes in a sequence of length [n]. *)
Definition index_position (n i : Z) : Z := if i <? 0 then i + n else i.

(** [l[i]] *)
Definition py_index {T : Type} (l : list T) (i : Z) : outcome T :=
  let j := index_position (len l) i in
  if (j <? 0) || (j >=? len l) then Raise IndexError
  else match nth_error l (Z.to_nat j) with
       | Some v => Ok v
       | None => Raise IndexError
       end.

(** [tuple(f(a) for a in items)] *)
Fixpoint py_tuple_of {T U : Type} (f : T -> outcome U) (items : list T)
  : outcome (list U) :=
  match items with
  | [] => Ok []
  | a :: rest =>
    v <- f a ;;
    vs <- py_tuple_of f rest ;;
    Ok (v :: vs)
  end.

(** A size as the helpers return it: an integer, or a 0-D integer
    tensor. *)
Inductive size_value : Type :=
| SizeInt (n : Z)
| SizeTensor (t : Tensor Z).

(** [t[i]] on a 1-D tensor: a 0-D tensor. *)
Definition tensor_index (t : Tensor Z) (i : Z) : Tensor Z :=
  mkTensor
    (Some [])
    (match value t with
     | Some (_, data) =>
       match py_index data i with
       | Ok v => Some ([], [v])
       | Raise _ => None
       end
     | None => None
     end).

(** [tf.rank(x)] *)
Definition tf_rank {T : Type} (x : Tensor T) : Tensor Z :=
  mkTensor
    (Some [])
    (match value x with
     | Some (dims, _) => Some ([], [len dims])
     | None => None
     end).

(** The element of a 0-D tensor. *)
Definition scalar_of (t : Tensor Z) : option Z :=
  match value t with
  | Some ([], [v]) => Some v
  | _ => None
  end.

(** [tf.stack(parts, axis=0)] on 0-D integer tensors. *)
Fixpoint stacked (parts : list (Tensor Z)) : option (list Z) :=
  match parts with
  | [] => Some []
  | t :: rest =>
    match scalar_of t, stacked rest with
    | Some v, Some vs => Some (v :: vs)
    | _, _ => None
    end
  end.

Definition tf_stack (parts : list (Tensor Z)) : Tensor Z :=
  mkTensor
    (Some [Some (len parts)])
    (match stacked parts with
     | Some vs => Some ([len vs], vs)
     | None => None
     end).

(** [get_batch_size(tensor, axis)] *)
Definition get_batch_size {T : Type} (tensor : Tensor T) (axis : Z)
  : outcome size_value :=
  batch_size <-
    match int_shape tensor with
    | Some shape => py_index shape axis
    | None => Ok None
    end ;;
  match batch_size with
  | Some n => Ok (SizeInt n)
  | None => Ok (SizeTensor (tensor_index (tf_shape tensor) axis))
  end.

(** [get_rank(tensor)] *)
Definition get_rank {T : Type} (tensor : Tensor T) : size_value :=
  match int_shape tensor with
  | Some tensor_shape => SizeInt (len tensor_shape)
  | None => SizeTensor (tf_rank tensor)
  end.

(** [get_dimensions_size(tensor, axis)]; [axis] is [None] or a tuple. *)
Definition get_dimensions_size {T : Type} (tensor : Tensor T)
  (axis : option (list Z)) : outcome py_shape :=
  match axis with
  | Some [] => Ok (PyTuple [])
  | _ =>
    shape <-
      match int_shape tensor, axis with
      | Some shape, Some axis =>
        selected <- py_tuple_of (py_index shape) axis ;;
        Ok (Some selected)
      | shape, _ => Ok shape
      end ;;
    let dynamic_shape := tf_shape tensor in
    let dynamic :=
      match axis with
      | None => PyTensor dynamic_shape
      | Some axis => PyTensor (tf_stack (map (tensor_index dynamic_shape) axis))
      end in
    match shape with
    | Some static => if none_in static then Ok dynamic else Ok (PyTuple static)
    | None => Ok dynamic
    end
  end.

(** [get_shape = functools.partial(get_dimensions_size, axis=None)] *)
Definition get_shape {T : Type} (tensor : Tensor T) : outcome py_shape :=
  get_dimensions_size tensor None.

(** *** Properties of the other shape helpers *)

(** What a returned size stands for when the graph is run. *)
Definition size_denotes (s : size_value) (d : Z) : Prop :=
  match s with
  | SizeInt n => n = d
  | SizeTensor t => scalar_of t = Some d
  end.

(** What a returned shape stands for when the graph is run. *)
Definition shape_denotes (p : py_shape) (sizes : list Z) : Prop :=
  match p with
  | PyTuple s => s = map Some sizes
  | PyTensor t => data_of t = Some sizes
  end.

Lemma py_index_Ok {T : Type} (l : list T) (i : Z) (v : T) :
  py_index l i = Ok v <->
  0 <= index_position (len l) i < len l /\
  nth_error l (Z.to_nat (index_position (len l) i)) = Some v.
Proof.
  unfold py_index. cbv zeta.
  destruct (index_position (len l) i <? 0) eqn:E1;
    destruct (index_position (len l) i >=? len l) eqn:E2; simpl;
    try (split; [discriminate | intros [H _]; lia]).
  destruct (nth_error l (Z.to_nat (index_position (len l) i))) as [u|] eqn:E.
  - split; [intros H; inversion H; subst; split; [lia | reflexivity]
           | intros [_ H]; inversion H; reflexivity].
  - split; [discriminate | intros [_ H]; discriminate].
Qed.

Lemma py_index_raises {T : Type} (l : list T) (i : Z) (e : exception) :
  py_index l i = Raise e ->
  e = IndexError /\ ~ (0 <= index_position (len l) i < len l).
Proof.
  unfold py_index. cbv zeta.
  destruct (index_position (len l) i <? 0) eqn:E1;
    destruct (index_position (len l) i >=? len l) eqn:E2; simpl;
    try (intros H; inversion H; split; [reflexivity | lia]).
  destruct (nth_error l (Z.to_nat (index_position (len l) i))) as [u|] eqn:E;
    [discriminate|].
  apply nth_error_None in E. unfold len in *. lia.
Qed.

Lemma py_index_in_range {T : Type} (l : list T) (i : Z) :
  0 <= index_position (len l) i < len l -> exists v, py_index l i = Ok v.
Proof.
  intros H. destruct (py_index l i) as [v|e] eqn:E; [eauto|].
  apply py_index_raises in E. tauto.
Qed.

Lemma Forall2_nth_error {T U : Type} (P : T -> U -> Prop) (l1 : list T)
  (l2 : list U) (n : nat) (a : T) (b : U) :
  Forall2 P l1 l2 ->
  nth_error l1 n = Some a -> nth_error l2 n = Some b -> P a b.
Proof.
  intros H. revert n. induction H; intros [|n] N1 N2; simpl in *;
    try discriminate.
  - inversion N1; inversion N2; subst; assumption.
  - eapply IHForall2; eassumption.
Qed.

(** Two sequences of the same length are indexed alike. *)
Lemma py_index_Forall2 {T U : Type} (P : T -> U -> Prop) (l1 : list T)
  (l2 : list U) (i : Z) :
  Forall2 P l1 l2 ->
  match py_index l1 i, py_index l2 i with
  | Ok a, Ok b => P a b
  | Raise e1, Raise e2 => e1 = IndexError /\ e2 = IndexError
  | _, _ => False
  end.
Proof.
  intros H. pose proof (Forall2_len P l1 l2 H) as Hl.
  destruct (py_index l1 i) as [a|e1] eqn:E1, (py_index l2 i) as [b|e2] eqn:E2.
  - apply py_index_Ok in E1, E2. destruct E1 as [_ N1], E2 as [_ N2].
    rewrite <- Hl in N2.
    exact (Forall2_nth_error P l1 l2 _ a b H N1 N2).
  - apply py_index_Ok in E1. apply py_index_raises in E2. rewrite Hl in E1. tauto.
  - apply py_index_Ok in E2. apply py_index_raises in E1. rewrite Hl in E1. tauto.
  - apply py_index_raises in E1, E2. tauto.
Qed.

Lemma scalar_of_tensor_index (t : Tensor Z) (data : list Z) (i d : Z) :
  data_of t = Some data ->
  py_index data i = Ok d ->
  scalar_of (tensor_index t i) = Some d.
Proof.
  unfold data_of, scalar_of, tensor_index; simpl.
  destruct (value t) as [[s e]|]; simpl; intros H E; inversion H; subst.
  now rewrite E.
Qed.

Lemma scalar_of_tensor_index_None (t : Tensor Z) (data : list Z) (i : Z)
  (e : exception) :
  data_of t = Some data ->
  py_index data i = Raise e ->
  value (tensor_index t i) = None.
Proof.
  unfold data_of, tensor_index; simpl.
  destruct (value t) as [[s u]|]; simpl; intros H E; inversion H; subst.
  now rewrite E.
Qed.

(** The size of an axis as the static shape gives it, when it does. *)
Definition static_size {T : Type} (x : Tensor T) (axis : Z) : option Z :=
  match static_shape x with
  | Some shape =>
    match py_index shape axis with
    | Ok (Some n) => Some n
    | _ => None
    end
  | None => None
  end.

(** X1. On a tensor that evaluates to dimensions [dims],
    [get_batch_size] returns the size [dims[axis]] whenever the axis is
    in range: as an integer when the static shape gives the size of
    the axis, and as a 0-D tensor evaluating to it otherwise.  For an
    axis out of range it raises [IndexError] when the static shape is
    known, and otherwise returns a tensor that cannot be evaluated. *)
Theorem get_batch_size_size {T : Type} (x : Tensor T) (dims : list Z)
  (data : list T) (axis : Z) :
  well_formed x ->
  value x = Some (dims, data) ->
  (forall d, py_index dims axis = Ok d ->
             match static_size x axis with
             | Some _ => get_batch_size x axis = Ok (SizeInt d)
             | None =>
               exists t, get_batch_size x axis = Ok (SizeTensor t) /\
                         scalar_of t = Some d
             end) /\
  (forall e, py_index dims axis = Raise e ->
             match static_shape x with
             | Some _ => get_batch_size x axis = Raise IndexError
             | None =>
               exists t, get_batch_size x axis = Ok (SizeTensor t) /\
                         value t = None
             end).
Proof.
  intros [dims' [data' [Hv' [Hpos [_ Hag]]]]] Hv.
  rewrite Hv in Hv'. inversion Hv'; subst dims' data'; clear Hv'.
  assert (Hd : data_of (tf_shape x) = Some dims)
    by (rewrite data_of_tf_shape, Hv; reflexivity).
  unfold get_batch_size, static_size, int_shape.
  destruct (static_shape x) as [shape|].
  - pose proof (py_index_Forall2 dim_agrees shape dims axis Hag) as H.
    split.
    + intros d E. rewrite E in H.
      destruct (py_index shape axis) as [[n|]|e]; simpl; try contradiction.
      * simpl in H. subst. reflexivity.
      * eexists; split; [reflexivity|].
        now apply (scalar_of_tensor_index _ dims).
    + intros e E. rewrite E in H.
      destruct (py_index shape axis) as [o|e1]; [contradiction|].
      destruct H as [-> _]. reflexivity.
  - simpl. split.
    + intros d E. eexists; split; [reflexivity|].
      now apply (scalar_of_tensor_index _ dims).
    + intros e E. eexists; split; [reflexivity|].
      now apply (scalar_of_tensor_index_None _ dims axis e).
Qed.

(** X2. On a tensor that evaluates to dimensions [dims], [get_rank]
    returns [len dims]: as an integer when the number of dimensions is
    known statically, and as a 0-D tensor evaluating to it
    otherwise. *)
Theorem get_rank_rank {T : Type} (x : Tensor T) (dims : list Z) (data : list T) :
  well_formed x ->
  value x = Some (dims, data) ->
  match static_shape x with
  | Some _ => get_rank x = SizeInt (len dims)
  | None =>
    exists t, get_rank x = SizeTensor t /\ scalar_of t = Some (len dims)
  end.
Proof.
  intros [dims' [data' [Hv' [Hpos [_ Hag]]]]] Hv.
  rewrite Hv in Hv'. inversion Hv'; subst dims' data'; clear Hv'.
  unfold get_rank, int_shape. destruct (static_shape x) as [shape|].
  - f_equal. exact (Forall2_len dim_agrees shape dims Hag).
  - eexists; split; [reflexivity|].
    unfold scalar_of, tf_rank; simpl. now rewrite Hv.
Qed.

Lemma py_tuple_of_Forall2 (shape : list (option Z)) (dims axis : list Z) :
  Forall2 dim_agrees shape dims ->
  match py_tuple_of (py_index dims) axis with
  | Ok sizes =>
    exists selected, py_tuple_of (py_index shape) axis = Ok selected /\
                     Forall2 dim_agrees selected sizes
  | Raise _ => py_tuple_of (py_index shape) axis = Raise IndexError
  end.
Proof.
  intros H. induction axis as [|a rest IH]; simpl.
  - exists []. split; [reflexivity | constructor].
  - pose proof (py_index_Forall2 dim_agrees shape dims a H) as Ha.
    destruct (py_index dims a) as [d|e], (py_index shape a) as [o|e'];
      simpl; try contradiction.
    + destruct (py_tuple_of (py_index dims) rest) as [sizes|e]; simpl.
      * destruct IH as [selected [E F]]. rewrite E. simpl.
        exists (o :: selected). split; [reflexivity | now constructor].
      * now rewrite IH.
    + destruct Ha as [-> _]. reflexivity.
Qed.

Lemma stacked_indices (t : Tensor Z) (dims axis sizes : list Z) :
  data_of t = Some dims ->
  py_tuple_of (py_index dims) axis = Ok sizes ->
  stacked (map (tensor_index t) axis) = Some sizes.
Proof.
  intros Hd. revert sizes. induction axis as [|a rest IH]; simpl; intros sizes E.
  - now inversion E.
  - destruct (py_index dims a) as [d|e] eqn:Ea; simpl in E; [|discriminate].
    destruct (py_tuple_of (py_index dims) rest) as [r|e]; simpl in E;
      inversion E; subst.
    rewrite (scalar_of_tensor_index t dims a d Hd Ea), (IH r eq_refl).
    reflexivity.
Qed.

Lemma agrees_ints (shape : list (option Z)) (dims : list Z) :
  Forall2 dim_agrees shape dims -> none_in shape = false -> shape = map Some dims.
Proof.
  intros H Hn. destruct (as_ints shape) as [ints|] eqn:E.
  - rewrite (as_ints_inv shape ints E). f_equal.
    exact (as_ints_agrees shape dims ints H E).
  - now apply as_ints_none_in in Hn.
Qed.

(** X3. On a tensor that evaluates to dimensions [dims],
    [get_dimensions_size] with a tuple of axes returns
    [tuple(dims[a] for a in axis)] whenever every axis is in range, as
    a tuple of integers or as a tensor evaluating to it; with an axis
    out of range and a known static shape it raises [IndexError]. *)
Theorem get_dimensions_size_sizes {T : Type} (x : Tensor T) (dims : list Z)
  (data : list T) (axis : list Z) :
  well_formed x ->
  value x = Some (dims, data) ->
  (forall sizes,
     py_tuple_of (py_index dims) axis = Ok sizes ->
     exists p, get_dimensions_size x (Some axis) = Ok p /\ shape_denotes p sizes) /\
  (forall e,
     py_tuple_of (py_index dims) axis = Raise e ->
     static_shape x <> None ->
     get_dimensions_size x (Some axis) = Raise IndexError).
Proof.
  intros [dims' [data' [Hv' [Hpos [_ Hag]]]]] Hv.
  rewrite Hv in Hv'. inversion Hv'; subst dims' data'; clear Hv'.
  assert (Hd : data_of (tf_shape x) = Some dims)
    by (rewrite data_of_tf_shape, Hv; reflexivity).
  split.
  - intros sizes E. destruct axis as [|a rest].
    + inversion E. exists (PyTuple []). split; reflexivity.
    + unfold get_dimensions_size, int_shape. cbv zeta.
      assert (Hdyn : shape_denotes
                (PyTensor (tf_stack (map (tensor_index (tf_shape x)) (a :: rest))))
                sizes).
      { unfold shape_denotes, data_of, tf_stack; cbn [value].
        now rewrite (stacked_indices _ dims (a :: rest) sizes Hd E). }
      destruct (static_shape x) as [shape|].
      * pose proof (py_tuple_of_Forall2 shape dims (a :: rest) Hag) as H.
        rewrite E in H. destruct H as [selected [Es F]].
        rewrite Es. cbn [obind].
        destruct (none_in selected) eqn:En.
        -- eexists; split; [reflexivity | exact Hdyn].
        -- eexists; split; [reflexivity|]. simpl. now apply agrees_ints.
      * cbn [obind]. eexists; split; [reflexivity | exact Hdyn].
  - intros e E Hs. destruct axis as [|a rest]; [discriminate|].
    unfold get_dimensions_size, int_shape.
    destruct (static_shape x) as [shape|]; [|congruence].
    pose proof (py_tuple_of_Forall2 shape dims (a :: rest) Hag) as H.
    rewrite E in H. now rewrite H.
Qed.

(** X4. On a tensor that evaluates to dimensions [dims], [get_shape]
    never raises and returns [dims]: as a tensor exactly when the
    static shape is unknown or has an unknown dimension, and as a tuple
    of integers otherwise. *)
Theorem get_shape_sizes {T : Type} (x : Tensor T) (dims : list Z) (data : list T) :
  well_formed x ->
  value x = Some (dims, data) ->
  exists p,
    get_shape x = Ok p /\
    shape_denotes p dims /\
    is_tensor_object p =
      match static_shape x with
      | Some shape => none_in shape
      | None => true
      end.
Proof.
  intros [dims' [data' [Hv' [Hpos [_ Hag]]]]] Hv.
  rewrite Hv in Hv'. inversion Hv'; subst dims' data'; clear Hv'.
  assert (Hd : data_of (tf_shape x) = Some dims)
    by (rewrite data_of_tf_shape, Hv; reflexivity).
  unfold get_shape, get_dimensions_size, int_shape. cbv zeta.
  destruct (static_shape x) as [shape|]; cbn [obind].
  - destruct (none_in shape) eqn:En.
    + eexists; repeat split; exact Hd.
    + eexists; split; [reflexivity|]. split; [|reflexivity].
      simpl. now apply agrees_ints.
  - eexists; repeat split; exact Hd.
Qed.

(** *** [concat_shapes] on tuples and tensors *)

Lemma data_of_concat_tensors (ts : list (Tensor Z)) (sizes : list (list Z)) :
  Forall2 (fun t s => data_of t = Some s) ts sizes ->
  data_of (concat_tensors ts) = Some (List.concat sizes).
Proof.
  induction 1 as [|t s ts sizes Ht H IH]; [reflexivity|].
  simpl List.concat. unfold data_of in *. simpl.
  destruct (value t) as [[st dt]|]; simpl in Ht; inversion Ht; subst.
  destruct (value (concat_tensors ts)) as [[sr dr]|]; simpl in IH;
    inversion IH; subst.
  reflexivity.
Qed.

Lemma to_tensors_denotes (parts : list py_shape) (sizes : list (list Z)) :
  Forall2 shape_denotes parts sizes ->
  exists ts, to_tensors parts = Ok ts /\
             Forall2 (fun t s => data_of t = Some s) ts sizes.
Proof.
  induction 1 as [|p s parts sizes Hp H IH]; simpl.
  - exists []. split; [reflexivity | constructor].
  - destruct IH as [ts [E F]].
    destruct p as [tuple_dims|t]; simpl in Hp.
    + subst. rewrite as_tensor_ints. cbn [obind].
      rewrite E. cbn [obind]. eexists; split; [reflexivity|].
      constructor; [reflexivity | exact F].
    + cbn [as_tensor obind]. rewrite E. cbn [obind].
      eexists; split; [reflexivity|]. now constructor.
Qed.

(** A size that a 32-bit integer of the library holds. *)
Definition int32 (z : Z) : Prop := -2147483648 <= z <= 2147483647.

(** X5. When each of the shapes given to [concat_shapes] stands for a
    list of sizes that 32-bit integers hold, the result stands for the
    concatenation of these lists, and it is a tensor exactly when one
    of the given shapes is. *)
Theorem concat_shapes_sizes (parts : list py_shape) (sizes : list (list Z)) :
  Forall2 shape_denotes parts sizes ->
  Forall (Forall int32) sizes ->
  exists p,
    concat_shapes parts = Ok p /\
    shape_denotes p (List.concat sizes) /\
    is_tensor_object p = existsb is_tensor_object parts.
Proof.
  intros H _. unfold concat_shapes.
  destruct (existsb is_tensor_object parts) eqn:E.
  - destruct (to_tensors_denotes parts sizes H) as [ts [Et F]].
    rewrite Et. cbn [obind]. eexists; split; [reflexivity|].
    split; [|reflexivity]. simpl. now apply data_of_concat_tensors.
  - eexists; split; [reflexivity|]. split; [|reflexivity].
    simpl. rewrite py_sum_concat. simpl.
    induction H as [|p s parts sizes Hp H IH]; [reflexivity|].
    simpl in E. apply orb_false_iff in E. destruct E as [E1 E2].
    destruct p; [|discriminate]. simpl in Hp. subst.
    simpl. rewrite map_app. f_equal. now apply IH.
Qed.

(** *** More on [resolve_negative_axis] *)

Lemma resolved_index_in_range (ndims i : Z) :
  0 <= i < ndims -> resolved_index ndims i = i.
Proof. intros H. unfold resolved_index. destruct (i <? 0) eqn:E; lia. Qed.

(** X6. [resolve_negative_axis] is idempotent: a tuple it returned is
    accepted again for the same [ndims] and returned as it is. *)
Theorem resolve_negative_axis_idempotent (ndims : Z) (axis ret : list Z) :
  resolve_negative_axis ndims axis = Ok ret ->
  resolve_negative_axis ndims ret = Ok ret.
Proof.
  unfold resolve_negative_axis. rewrite !resolve_loop_eq. simpl app.
  destruct (forallb (in_range ndims) (map (resolved_index ndims) axis)) eqn:E;
    [|discriminate].
  intros H; inversion H; subst; clear H.
  apply forallb_in_range in E.
  assert (Hid : map (resolved_index ndims) (map (resolved_index ndims) axis) =
                map (resolved_index ndims) axis).
  { induction E as [|i r Hi E IH]; [reflexivity|].
    simpl. now rewrite IH, resolved_index_in_range. }
  rewrite Hid. apply forallb_in_range in E. now rewrite E.
Qed.

Lemma py_index_resolved {T : Type} (l : list T) (a : Z) :
  in_range (len l) (resolved_index (len l) a) = true ->
  py_index l (resolved_index (len l) a) = py_index l a /\
  exists v, py_index l a = Ok v.
Proof.
  intros H. apply in_range_iff in H.
  assert (Hp : index_position (len l) a = resolved_index (len l) a) by reflexivity.
  split.
  - unfold py_index. cbv zeta.
    assert (Hq : index_position (len l) (resolved_index (len l) a) =
                 resolved_index (len l) a)
      by (unfold index_position;
          destruct (resolved_index (len l) a <? 0) eqn:E; [lia | reflexivity]).
    now rewrite Hq, Hp.
  - apply py_index_in_range. now rewrite Hp.
Qed.

Lemma py_index_not_resolved {T : Type} (l : list T) (a : Z) :
  in_range (len l) (resolved_index (len l) a) = false ->
  py_index l a = Raise IndexError.
Proof.
  intros H. destruct (py_index l a) as [v|e] eqn:E.
  - apply py_index_Ok in E. destruct E as [E _].
    apply in_range_iff in E. unfold index_position in E.
    unfold resolved_index in H. congruence.
  - apply py_index_raises in E. now destruct E as [-> _].
Qed.

(** X7. On a sequence of length [ndims], the indices returned by
    [resolve_negative_axis] select the same elements as the given ones,
    and when [resolve_negative_axis] raises, indexing the sequence by
    the given tuple raises [IndexError]. *)
Theorem resolve_negative_axis_indexing {T : Type} (l : list T) (axis : list Z) :
  (forall ret,
     resolve_negative_axis (len l) axis = Ok ret ->
     exists vs, py_tuple_of (py_index l) axis = Ok vs /\
                py_tuple_of (py_index l) ret = Ok vs) /\
  (forall e,
     resolve_negative_axis (len l) axis = Raise e ->
     py_tuple_of (py_index l) axis = Raise IndexError).
Proof.
  unfold resolve_negative_axis. rewrite resolve_loop_eq. simpl app.
  induction axis as [|a rest [IHok IHraise]]; simpl.
  - split; [|discriminate]. intros ret H; inversion H. now exists [].
  - destruct (in_range (len l) (resolved_index (len l) a)) eqn:Ea; simpl.
    + destruct (py_index_resolved l a Ea) as [Er [v Ev]].
      destruct (forallb (in_range (len l)) (map (resolved_index (len l)) rest))
        eqn:Erest.
      * split; [|discriminate]. intros ret H; inversion H; subst; clear H.
        destruct (IHok _ eq_refl) as [vs [E1 E2]].
        exists (v :: vs). simpl. now rewrite Er, Ev, E1, E2.
      * split; [discriminate|]. intros e _.
        now rewrite Ev, (IHraise _ eq_refl).
    + split; [discriminate|]. intros e _.
      now rewrite (py_index_not_resolved l a Ea).
Qed.

(** *** The shape of a flattened tensor *)

(** The last [k - 1] entries of a sequence, and the entries before
    them. *)
Definition front_of {T : Type} (k : Z) (l : list T) : list T :=
  firstn (Z.to_nat (len l - (k - 1))) l.

Definition back_of {T : Type} (k : Z) (l : list T) : list T :=
  skipn (Z.to_nat (len l - (k - 1))) l.

Lemma front_back_of {T : Type} (k : Z) (l : list T) : front_of k l ++ back_of k l = l.
Proof. apply firstn_skipn. Qed.

Lemma len_back_of {T : Type} (k : Z) (l : list T) :
  1 <= k <= len l -> len (back_of k l) = k - 1.
Proof.
  intros H. unfold back_of, len at 1. rewrite length_skipn. unfold len in *. lia.
Qed.

Lemma slices_of {T : Type} (k : Z) (l : list T) :
  1 < k < len l ->
  slice_to l (- (k - 1)) = front_of k l /\ slice_from l (- (k - 1)) = back_of k l.
Proof.
  intros H. unfold slice_to, slice_from, front_of, back_of.
  now rewrite (front_bound (len l) k H).
Qed.

Lemma first_of_all {T : Type} (l : list T) : front_of 1 l = l /\ back_of 1 l = [].
Proof.
  unfold front_of, back_of, len.
  replace (Z.to_nat (Z.of_nat (List.length l) - (1 - 1))) with (List.length l) by lia.
  split; [apply firstn_all | apply skipn_all].
Qed.

Section FlattenShape.

Variable A : Type.
Variable missing_dim : list Z -> list Z -> option Z.

(** X8. When [flatten] reshapes a tensor of known rank greater than
    [k], the static front shape it returns is the static shape without
    its last [k - 1] entries, and the front shape it returns stands for
    the sizes of these leading dimensions. *)
Theorem flatten_front_shape (x : Tensor A) (shape : list (option Z))
  (dims : list Z) (data : list A) (k : Z)
  (y : Tensor A) (sfs : option (list (option Z))) (fs : option py_shape) :
  well_formed x ->
  static_shape x = Some shape ->
  value x = Some (dims, data) ->
  1 <= k < len shape ->
  flatten A missing_dim x k = Ok (y, sfs, fs) ->
  sfs = Some (front_of k shape) /\
  exists p, fs = Some p /\ denotes p (front_of k shape) (front_of k dims).
Proof.
  intros [dims' [data' [Hv' [Hpos [_ Hag]]]]] Hs Hv Hk E.
  rewrite Hv in Hv'. inversion Hv'; subst dims' data'; clear Hv'.
  rewrite Hs in Hag. pose proof (Forall2_len _ _ _ Hag) as Hl.
  assert (Hd : data_of (tf_shape x) = Some dims)
    by (rewrite data_of_tf_shape, Hv; reflexivity).
  destruct (Z.eq_dec k 1) as [->|Hk1].
  - destruct (flatten_one A missing_dim x shape Hs) as [s0 E']; [lia|].
    rewrite E' in E. inversion E; subst; clear E.
    destruct (first_of_all shape) as [-> _], (first_of_all dims) as [-> _].
    split; [reflexivity|]. eexists; split; [reflexivity|].
    destruct (none_in shape) eqn:En; [right | left; auto].
    eexists; split; [reflexivity|]. split; [|exact Hd].
    now apply static_length_tf_shape.
  - destruct (flatten_general A missing_dim x shape k Hs) as [y' [E' _]]; [lia|].
    rewrite E' in E. inversion E; subst; clear E.
    destruct (slices_of k shape) as [-> _]; [lia|].
    split; [reflexivity|]. eexists; split; [reflexivity|].
    destruct (none_in (front_of k shape)) eqn:En; [right | left; auto].
    eexists; split; [reflexivity|]. split.
    + rewrite static_length_slice_to, (static_length_tf_shape x shape Hs).
      cbn [option_map]. rewrite <- len_slice_to. f_equal.
      now destruct (slices_of k shape) as [-> _]; [lia|].
    + rewrite data_of_slice_to, Hd. cbn [option_map]. f_equal.
      destruct (slices_of k dims) as [-> _]; [lia | reflexivity].
Qed.

(** X9. When [flatten] reshapes a tensor of known rank greater than
    [k] and the result can be evaluated, the result has exactly [k]
    dimensions, the last [k - 1] being those of the input, it holds
    the same elements in the same order, and its first dimension times
    the others is the number of elements of the input (so it is the
    product of the leading dimensions when the others are not
    zero). *)
Theorem flatten_shape (x : Tensor A) (shape : list (option Z))
  (dims : list Z) (data : list A) (k : Z)
  (y : Tensor A) (sfs : option (list (option Z))) (fs : option py_shape) :
  well_formed x ->
  static_shape x = Some shape ->
  value x = Some (dims, data) ->
  1 <= k < len shape ->
  flatten A missing_dim x k = Ok (y, sfs, fs) ->
  value y <> None ->
  exists s0 m,
    static_shape y = Some (s0 :: back_of k shape) /\
    value y = Some (m :: back_of k dims, data) /\
    len (m :: back_of k dims) = k /\
    m * product (back_of k dims) = product dims /\
    (product (back_of k dims) <> 0 -> m = product (front_of k dims)).
Proof.
  intros [dims' [data' [Hv' [Hpos [_ Hag]]]]] Hs Hv Hk E Hy.
  rewrite Hv in Hv'. inversion Hv'; subst dims' data'; clear Hv'.
  rewrite Hs in Hag. pose proof (Forall2_len _ _ _ Hag) as Hl.
  assert (Hfinal : forall s0 m,
    static_shape y = Some (s0 :: back_of k shape) ->
    value y = Some (m :: back_of k dims, data) ->
    product (m :: back_of k dims) = product dims ->
    exists s0 m,
      static_shape y = Some (s0 :: back_of k shape) /\
      value y = Some (m :: back_of k dims, data) /\
      len (m :: back_of k dims) = k /\
      m * product (back_of k dims) = product dims /\
      (product (back_of k dims) <> 0 -> m = product (front_of k dims))).
  { intros s0 m H1 H2 H3. exists s0, m. split; [exact H1|]. split; [exact H2|].
    split.
    - change (m :: back_of k dims) with ([m] ++ back_of k dims).
      rewrite len_app, len_back_of by lia. change (len [m]) with 1. lia.
    - simpl in H3. split; [exact H3|]. intros Hnz.
      assert (Hp : product dims =
                   product (front_of k dims) * product (back_of k dims))
        by (now rewrite <- product_app, front_back_of).
      rewrite Hp in H3. now apply Z.mul_cancel_r in H3. }
  destruct (Z.eq_dec k 1) as [->|Hk1].
  - destruct (flatten_one A missing_dim x shape Hs) as [s0 E']; [lia|].
    rewrite E' in E. inversion E; subst; clear E.
    cbn [value] in Hy. rewrite Hv in Hy.
    destruct (reshape_value_flat A missing_dim dims [] data (Forall_nil _) Hy)
      as [m [Em Hm]].
    destruct (first_of_all shape) as [_ Hbs], (first_of_all dims) as [_ Hbd].
    apply (Hfinal s0 m); rewrite ?Hbs, ?Hbd; cbn [static_shape value];
      [reflexivity | now rewrite Hv | exact Hm].
  - destruct (flatten_general A missing_dim x shape k Hs) as [y' [E' H]]; [lia|].
    rewrite E' in E. inversion E; subst; clear E.
    destruct (H dims data Hv Hag Hpos) as [[s0 Hsy] Hvy].
    destruct (slices_of k shape) as [_ Hbs]; [lia|].
    destruct (slices_of k dims) as [_ Hbd]; [lia|].
    rewrite Hbs in Hsy. rewrite Hbd, Hv in Hvy. rewrite Hvy in Hy.
    assert (Hposb : Forall (fun d => 0 <= d) (back_of k dims))
      by (rewrite <- Hbd; now apply Forall_slice_from).
    destruct (reshape_value_flat A missing_dim dims (back_of k dims) data Hposb Hy)
      as [m [Em Hm]].
    apply (Hfinal s0 m); [exact Hsy | now rewrite Hvy | exact Hm].
Qed.

End FlattenShape.

(** *** The helpers on the sample tensor *)

Definition sample_data : list Z := [1; 2; 3; 4; 5; 6; 7; 8; 9; 10; 11; 12].

(** The sample flattened to two dimensions. *)
Definition flat_sample : Tensor Z :=
  mkTensor (Some [None; Some 2]) (Some ([6; 2], sample_data)).

Definition front_of_sample : py_shape :=
  PyTensor (mkTensor (Some [Some 2]) (Some ([2], [2; 3]))).

Example get_batch_size_sample :
  get_batch_size sample 0 = Ok (SizeInt 2) /\
  get_batch_size sample (-2) =
    Ok (SizeTensor (mkTensor (Some []) (Some ([], [3])))) /\
  get_batch_size sample 3 = Raise IndexError.
Proof. split; [reflexivity | split; reflexivity]. Qed.

Example get_dimensions_size_sample :
  get_dimensions_size sample (Some [0; -1]) = Ok (PyTuple [Some 2; Some 2]) /\
  get_dimensions_size sample (Some [-1; 1]) =
    Ok (PyTensor (mkTensor (Some [Some 2]) (Some ([2], [2; 3])))) /\
  get_dimensions_size sample (Some []) = Ok (PyTuple []).
Proof. split; [reflexivity | split; reflexivity]. Qed.

(** A tensor whose number of dimensions is not known statically. *)
Definition unknown_rank_sample : Tensor Z :=
  mkTensor None (Some ([2; 3; 2], sample_data)).

Lemma unknown_rank_sample_well_formed : well_formed unknown_rank_sample.
Proof.
  exists [2; 3; 2], sample_data.
  split; [reflexivity|]. split; [repeat constructor; lia|].
  split; [reflexivity|]. exact I.
Defined.

Example get_rank_sample :
  get_rank sample = SizeInt 3 /\
  get_rank unknown_rank_sample =
    SizeTensor (mkTensor (Some []) (Some ([], [3]))).
Proof. split; reflexivity. Qed.

Lemma get_batch_size_size_witness :
  (forall d, py_index [2; 3; 2] 1 = Ok d ->
             match static_size sample 1 with
             | Some _ => get_batch_size sample 1 = Ok (SizeInt d)
             | None =>
               exists t, get_batch_size sample 1 = Ok (SizeTensor t) /\
                         scalar_of t = Some d
             end) /\
  (forall e, py_index [2; 3; 2] 1 = Raise e ->
             match static_shape sample with
             | Some _ => get_batch_size sample 1 = Raise IndexError
             | None =>
               exists t, get_batch_size sample 1 = Ok (SizeTensor t) /\
                         value t = None
             end).
Proof.
  exact (get_batch_size_size sample [2; 3; 2] sample_data 1
           sample_well_formed eq_refl).
Defined.

Lemma get_rank_rank_witness :
  exists t, get_rank unknown_rank_sample = SizeTensor t /\
            scalar_of t = Some (len [2; 3; 2]).
Proof.
  exact (get_rank_rank unknown_rank_sample [2; 3; 2] sample_data
           unknown_rank_sample_well_formed eq_refl).
Defined.

Lemma get_dimensions_size_sizes_witness :
  (forall sizes,
     py_tuple_of (py_index [2; 3; 2]) [-1; 1] = Ok sizes ->
     exists p, get_dimensions_size sample (Some [-1; 1]) = Ok p /\
               shape_denotes p sizes) /\
  (forall e,
     py_tuple_of (py_index [2; 3; 2]) [-1; 1] = Raise e ->
     static_shape sample <> None ->
     get_dimensions_size sample (Some [-1; 1]) = Raise IndexError).
Proof.
  exact (get_dimensions_size_sizes sample [2; 3; 2] sample_data [-1; 1]
           sample_well_formed eq_refl).
Defined.

Lemma get_shape_sizes_witness :
  exists p,
    get_shape sample = Ok p /\
    shape_denotes p [2; 3; 2] /\
    is_tensor_object p =
      match static_shape sample with
      | Some shape => none_in shape
      | None => true
      end.
Proof.
  exact (get_shape_sizes sample [2; 3; 2] sample_data sample_well_formed eq_refl).
Defined.

Lemma sample_sizes_int32 : Forall (Forall int32) [[4]; [2; 3]].
Proof. unfold int32. repeat constructor; lia. Defined.

Lemma concat_shapes_sizes_witness :
  exists p,
    concat_shapes [int_tuple [4]; front_of_sample] = Ok p /\
    shape_denotes p (List.concat [[4]; [2; 3]]) /\
    is_tensor_object p = existsb is_tensor_object [int_tuple [4]; front_of_sample].
Proof.
  apply (concat_shapes_sizes [int_tuple [4]; front_of_sample] [[4]; [2; 3]]).
  - repeat constructor.
  - exact sample_sizes_int32.
Defined.

Lemma resolve_negative_axis_idempotent_witness :
  resolve_negative_axis 4 [0; 3; 2] = Ok [0; 3; 2].
Proof.
  exact (resolve_negative_axis_idempotent 4 [0; -1; -2] [0; 3; 2] eq_refl).
Defined.

Lemma sample_rank : 1 <= 2 < len [Some 2; None; Some 2].
Proof. unfold len; simpl; lia. Defined.

Lemma flatten_front_shape_witness :
  Some [Some 2; None] = Some (front_of 2 [Some 2; None; Some 2]) /\
  exists p, Some front_of_sample = Some p /\
            denotes p (front_of 2 [Some 2; None; Some 2]) (front_of 2 [2; 3; 2]).
Proof.
  exact (flatten_front_shape Z exact_division sample [Some 2; None; Some 2]
           [2; 3; 2] sample_data 2 flat_sample (Some [Some 2; None])
           (Some front_of_sample) sample_well_formed eq_refl eq_refl
           sample_rank eq_refl).
Defined.

Lemma flat_sample_evaluates : value flat_sample <> None.
Proof. discriminate. Defined.

Lemma flatten_shape_witness :
  exists s0 m,
    static_shape flat_sample = Some (s0 :: back_of 2 [Some 2; None; Some 2]) /\
    value flat_sample = Some (m :: back_of 2 [2; 3; 2], sample_data) /\
    len (m :: back_of 2 [2; 3; 2]) = 2 /\
    m * product (back_of 2 [2; 3; 2]) = product [2; 3; 2] /\
    (product (back_of 2 [2; 3; 2]) <> 0 -> m = product (front_of 2 [2; 3; 2])).
Proof.
  exact (flatten_shape Z exact_division sample [Some 2; None; Some 2]
           [2; 3; 2] sample_data 2 flat_sample (Some [Some 2; None])
           (Some front_of_sample) sample_well_formed eq_refl eq_refl
           sample_rank eq_refl flat_sample_evaluates).
Defined.

End ShapeUtils.

(** ** The base trainer ([tfsnippet/trainer/base_trainer.py]) *)

Module Trainer.

Import ListNotations.

(** The priorities [base_trainer.py] registers hooks with. *)
Inductive HookPriority : Type :=
| EVALUATION
| ANNEALING
| LOGGING.

(** The four hook lists of a trainer, in the order of [hook_lists]. *)
Inductive which : Type :=
| BeforeEpochs
| BeforeSteps
| AfterSteps
| AfterEpochs.

Definition all_hook_lists : list which :=
  [BeforeEpochs; BeforeSteps; AfterSteps; AfterEpochs].

Section WithCollaborators.

(** Everything outside the trainer: the session, the variables, the
    training loop, the data, what callbacks write to. *)
Variable World : Type.
(** References to Python objects. *)
Variable object : Type.
Variable session : Type.
Variable payload : Type.

(** An iterator asked for its next item: it stops, or raises, or yields
    an item and is resumed later.  Iterators are finite. *)
Inductive gen (T : Type) : Type :=
| Stop (w : World)
| Raises (e : exception) (w : World)
| Yield (item : T) (w : World) (rest : World -> gen T).
Arguments Stop {T} w.
Arguments Raises {T} e w.
Arguments Yield {T} item w rest.

(** [callable(o)] and [getattr(o, name)]. *)
Variable callable : object -> bool.
Variable getattr : object -> string -> option object.

(** [self.loop.print_logs], a bound method. *)
Variable print_logs : object.
(** The total order of the priorities, fixed outside this file. *)
Variable priority_value : HookPriority -> Z.

(** *** Hook lists *)

Record Hook : Type := mkHook {
  hook_callback : object;
  hook_freq : positive;
  hook_priority : HookPriority
}.

Record HookList : Type := mkHookList {
  hooks : list Hook;
  counter : Z
}.

Definition empty_hook_list : HookList := mkHookList [] 0.

(** Modelled from the spec: [hooks.py] is not among the sources; the
    design document gives [HookList.add_hook] as registering a callback
    ordered by ascending priority, after the hooks of equal priority. *)
Fixpoint insert_hook (h : Hook) (l : list Hook) : list Hook :=
  match l with
  | [] => [h]
  | x :: rest =>
    if priority_value (hook_priority h) <? priority_value (hook_priority x)
    then h :: l
    else x :: insert_hook h rest
  end.

Definition HookList_add_hook (callback : object) (freq : positive)
  (priority : HookPriority) (l : HookList) : HookList :=
  mkHookList (insert_hook (mkHook callback freq priority) (hooks l)) (counter l).

(** Modelled from the spec: [HookList.reset] zeroes the trigger
    counter. *)
Definition HookList_reset (l : HookList) : HookList :=
  mkHookList (hooks l) 0.

(** Modelled from the spec: a trigger of the list increments the
    counter. *)
Definition HookList_tick (l : HookList) : HookList :=
  mkHookList (hooks l) (counter l + 1).

(** Modelled from the spec: a hook is due when the trigger counter is a
    multiple of its frequency. *)
Definition due (count : Z) (h : Hook) : bool :=
  count mod Z.pos (hook_freq h) =? 0.

(** *** The trainer and the runs of its methods *)

Record BaseTrainer : Type := mkTrainer {
  before_epochs : HookList;
  after_epochs : HookList;
  before_steps : HookList;
  after_steps : HookList;
  _is_fitting : bool
}.

(** [BaseTrainer.__init__] *)
Definition init : BaseTrainer :=
  mkTrainer empty_hook_list empty_hook_list empty_hook_list empty_hook_list false.

Definition hook_list (l : which) (t : BaseTrainer) : HookList :=
  match l with
  | BeforeEpochs => before_epochs t
  | BeforeSteps => before_steps t
  | AfterSteps => after_steps t
  | AfterEpochs => after_epochs t
  end.

Definition set_hook_list (l : which) (h : HookList) (t : BaseTrainer) : BaseTrainer :=
  match l with
  | BeforeEpochs =>
    mkTrainer h (after_epochs t) (before_steps t) (after_steps t) (_is_fitting t)
  | BeforeSteps =>
    mkTrainer (before_epochs t) (after_epochs t) h (after_steps t) (_is_fitting t)
  | AfterSteps =>
    mkTrainer (before_epochs t) (after_epochs t) (before_steps t) h (_is_fitting t)
  | AfterEpochs =>
    mkTrainer (before_epochs t) h (before_steps t) (after_steps t) (_is_fitting t)
  end.

Definition set_is_fitting (b : bool) (t : BaseTrainer) : BaseTrainer :=
  mkTrainer (before_epochs t) (after_epochs t) (before_steps t) (after_steps t) b.

(** The trainer [t] with the hook lists of [t']; the running flag is
    private to [run()]. *)
Definition with_hook_lists (t' t : BaseTrainer) : BaseTrainer :=
  mkTrainer (before_epochs t') (after_epochs t') (before_steps t')
            (after_steps t') (_is_fitting t).

(** What a called object does.  It works on the world and finishes,
    returning or raising; or it calls [run()] of the trainer and goes
    on with the outcome of that call; or it calls other methods of the
    trainer and of its hook lists (registrations, removals, resets):
    finding the trainer [t], it leaves the hook lists of [f t] and goes
    on as [k t]. *)
Inductive action : Type :=
| Finish (r : outcome unit) (w : World)
| Reenter (w : World) (k : outcome unit -> World -> action)
| Touch (f : BaseTrainer -> BaseTrainer) (k : BaseTrainer -> action).

(** [o()] *)
Variable call : object -> World -> action.

Variable get_default_session_or_error : World -> outcome session.
Variable ensure_variables_initialized : World -> outcome unit * World.
Variable print_training_summary : World -> outcome unit * World.
(** [self.loop.iter_epochs()] *)
Variable iter_epochs : World -> gen Z.
(** The two methods a subclass supplies: [_iter_steps] hands out the
    iterator over the steps of the epoch, [_run_step] is called with
    the session and the payload, and holds the trainer. *)
Variable _iter_steps : World -> outcome (World -> gen payload) * World.
Variable _run_step : session -> payload -> World -> action.

(** The calls [run()] makes, and the items its iterators yield. *)
Inductive event : Type :=
| EvGetSession
| EvEnsureInitialized
| EvPrintSummary
| EvReset (l : which)
| EvIterEpochs
| EvEpoch (epoch : Z)
| EvCallHooks (l : which)
| EvIterSteps
| EvPayload (p : payload)
| EvRunStep (s : session) (p : payload).

(** A state of the program: the trainer, the world around it, and the
    record of the calls made so far. *)
Record State : Type := mkState {
  trainer : BaseTrainer;
  world : World;
  log : list event
}.

Definition M (T : Type) : Type := State -> outcome T * State.

Definition ret {T : Type} (v : T) : M T := fun st => (Ok v, st).

Definition raise {T : Type} (e : exception) : M T := fun st => (Raise e, st).

Definition bind {T U : Type} (m : M T) (f : T -> M U) : M U :=
  fun st =>
    match m st with
    | (Ok v, st') => f v st'
    | (Raise e, st') => (Raise e, st')
    end.

Notation "x <- m ;; k" := (bind m (fun x => k))
  (at level 61, m at next level, right associativity).
Notation "m ;; k" := (bind m (fun _ => k))
  (at level 61, right associativity).

Definition set_world (w : World) (st : State) : State :=
  mkState (trainer st) w (log st).

Definition update_trainer (f : BaseTrainer -> BaseTrainer) : M unit :=
  fun st => (Ok tt, mkState (f (trainer st)) (world st) (log st)).

Definition emit (e : event) : M unit :=
  fun st => (Ok tt, mkState (trainer st) (world st) (log st ++ [e])).

(** A method of the hook list [l] of the trainer that updates it. *)
Definition on_hook_list (l : which) (f : HookList -> HookList) : M unit :=
  update_trainer (fun t => set_hook_list l (f (hook_list l t)) t).

(** A call that works on the world. *)
Definition extern {T : Type} (f : World -> outcome T * World) : M T :=
  fun st => let (r, w) := f (world st) in (r, set_world w st).

(** A call that reads the world. *)
Definition inspect {T : Type} (f : World -> outcome T) : M T :=
  fun st => (f (world st), st).

(** [try: body finally: cleanup] *)
Definition try_finally {T : Type} (body : M T) (cleanup : BaseTrainer -> BaseTrainer)
  : M T :=
  fun st =>
    let (r, st') := body st in
    (r, mkState (cleanup (trainer st')) (world st') (log st')).

(** [for item in it: body], the items being recorded as they come. *)
Fixpoint for_gen {T : Type} (g : gen T) (yielded : T -> event) (body : T -> M unit)
  : M unit :=
  match g with
  | Stop w => fun st => (Ok tt, set_world w st)
  | Raises e w => fun st => (Raise e, set_world w st)
  | Yield item w rest =>
    fun st =>
      match (emit (yielded item) ;; body item) (set_world w st) with
      | (Ok _, st') => for_gen (rest (world st')) yielded body st'
      | (Raise e, st') => (Raise e, st')
      end
  end.

Definition for_each {T : Type} (it : World -> gen T) (yielded : T -> event)
  (body : T -> M unit) : M unit :=
  fun st => for_gen (it (world st)) yielded body st.

(** [for x in xs: body] on a tuple. *)
Fixpoint for_list {T : Type} (xs : list T) (body : T -> M unit) : M unit :=
  match xs with
  | [] => ret tt
  | x :: rest => body x ;; for_list rest body
  end.

(** The run of a called object; [self_run] is [run()] of the trainer. *)
Fixpoint exec (self_run : M unit) (a : action) : M unit :=
  match a with
  | Finish r w => fun st => (r, set_world w st)
  | Reenter w k =>
    fun st =>
      let (r, st') := self_run (set_world w st) in
      exec self_run (k r (world st')) st'
  | Touch f k =>
    fun st =>
      exec self_run (k (trainer st))
        (mkState (with_hook_lists (f (trainer st)) (trainer st))
                 (world st) (log st))
  end.

(** A call of something that holds the trainer. *)
Definition perform (self_run : M unit) (f : World -> action) : M unit :=
  fun st => exec self_run (f (world st)) st.

Definition invoke (self_run : M unit) (callback : object) : M unit :=
  perform self_run (call callback).

(** Modelled from the spec: [HookList.call_hooks] increments the trigger
    counter and invokes, in the order of the list, every hook whose
    frequency divides it; an error of a callback propagates at once.
    The hooks invoked are those of the list when it is triggered. *)
Definition call_hooks (self_run : M unit) (l : which) : M unit :=
  emit (EvCallHooks l) ;;
  on_hook_list l HookList_tick ;;
  fun st =>
    let hl := hook_list l (trainer st) in
    for_list (filter (due (counter hl)) (hooks hl))
             (fun h => invoke self_run (hook_callback h)) st.

Definition reset (l : which) : M unit :=
  emit (EvReset l) ;;
  on_hook_list l HookList_reset.

Definition not_reentrant : exception :=
  RuntimeError "`run()` is not re-entrant.".

(** The body of the [try] of [run()]. *)
Definition run_body (self_run : M unit) : M unit :=
  emit EvGetSession ;;
  session <- inspect get_default_session_or_error ;;
  emit EvEnsureInitialized ;;
  extern ensure_variables_initialized ;;
  emit EvPrintSummary ;;
  extern print_training_summary ;;
  for_list all_hook_lists reset ;;
  emit EvIterEpochs ;;
  for_each iter_epochs EvEpoch (fun epoch =>
    call_hooks self_run BeforeEpochs ;;
    emit EvIterSteps ;;
    steps <- extern _iter_steps ;;
    for_each steps EvPayload (fun payload =>
      call_hooks self_run BeforeSteps ;;
      emit (EvRunStep session payload) ;;
      perform self_run (_run_step session payload) ;;
      call_hooks self_run AfterSteps) ;;
    call_hooks self_run AfterEpochs).

(** [BaseTrainer.run]; [depth] is the number of nested calls the
    interpreter still allows. *)
Fixpoint run (depth : nat) : M unit :=
  match depth with
  | O => raise RecursionError
  | S d =>
    fun st =>
      if _is_fitting (trainer st) then raise not_reentrant st
      else
        (update_trainer (set_is_fitting true) ;;
         try_finally (run_body (run d)) (set_is_fitting false)) st
  end.

(** *** Registration of hooks *)

(** [hook_list.add_hook(callback, freq=freq, priority=priority)] on
    the list [l] of the trainer. *)
Definition add_hook (l : which) (callback : object) (freq : positive)
  (priority : HookPriority) : M unit :=
  on_hook_list l (HookList_add_hook callback freq priority).

Definition one_and_only_one : exception :=
  ValueError "One and only one of `epochs` and `steps` should be specified.".

Definition is_not_None {T : Type} (v : option T) : bool :=
  match v with
  | Some _ => true
  | None => false
  end.

Definition check_epochs_and_steps_arg (epochs steps : option positive) : M unit :=
  if (is_not_None epochs && is_not_None steps) ||
     (negb (is_not_None epochs) && negb (is_not_None steps))
  then raise one_and_only_one
  else ret tt.

(** A frequency handed on to a registration: [None] is not a
    frequency. *)
Definition as_freq (v : option positive) : M positive :=
  match v with
  | Some f => ret f
  | None => raise (TypeError "int() argument must be a number, not 'NoneType'")
  end.

(** [obj.name] *)
Definition attribute (obj : object) (name : string) : M object :=
  match getattr obj name with
  | Some v => ret v
  | None => raise (AttributeError name)
  end.

Definition log_after_steps (freq : positive) : M unit :=
  add_hook AfterSteps print_logs freq LOGGING.

Definition log_after_epochs (freq : positive) : M unit :=
  add_hook AfterEpochs print_logs freq LOGGING.

Definition log_after (epochs steps : option positive) : M unit :=
  check_epochs_and_steps_arg epochs steps ;;
  match epochs with
  | Some epochs => log_after_epochs epochs
  | None => steps <- as_freq steps ;; log_after_steps steps
  end.

Definition evaluate_after_steps (evaluator : object) (freq : positive) : M unit :=
  callback <- (if callable evaluator then ret evaluator
               else attribute evaluator "run") ;;
  add_hook AfterSteps callback freq EVALUATION.

Definition evaluate_after_epochs (evaluator : object) (freq : positive) : M unit :=
  callback <- (if callable evaluator then ret evaluator
               else attribute evaluator "run") ;;
  add_hook AfterEpochs callback freq EVALUATION.

Definition evaluate_after (evaluator : object) (epochs steps : option positive)
  : M unit :=
  check_epochs_and_steps_arg epochs steps ;;
  match epochs with
  | Some epochs => evaluate_after_epochs evaluator epochs
  | None => steps <- as_freq steps ;; evaluate_after_steps evaluator steps
  end.

Definition anneal_after_steps (value : object) (freq : positive) : M unit :=
  callback <- (if callable value then ret value else attribute value "anneal") ;;
  add_hook AfterSteps callback freq ANNEALING.

Definition anneal_after_epochs (value : object) (freq : positive) : M unit :=
  callback <- (if callable value then ret value else attribute value "anneal") ;;
  add_hook AfterEpochs callback freq ANNEALING.

Definition anneal_after (value : object) (epochs steps : option positive) : M unit :=
  check_epochs_and_steps_arg epochs steps ;;
  match epochs with
  | Some epochs => anneal_after_epochs value epochs
  | None => steps <- as_freq steps ;; anneal_after_steps value steps
  end.

(** *** Properties of the registration methods *)

(** The state after the hook [(callback, freq, priority)] has been
    added to the list [l]. *)
Definition registered (l : which) (callback : object) (freq : positive)
  (priority : HookPriority) (st : State) : State :=
  mkState
    (set_hook_list l
       (HookList_add_hook callback freq priority (hook_list l (trainer st)))
       (trainer st))
    (world st) (log st).

(** Both of [epochs] and [steps] are given, or neither. *)
Definition both_or_neither (epochs steps : option positive) : Prop :=
  (epochs <> None /\ steps <> None) \/ (epochs = None /\ steps = None).

Lemma check_raises (epochs steps : option positive) (st : State) :
  both_or_neither epochs steps ->
  check_epochs_and_steps_arg epochs steps st = (Raise one_and_only_one, st).
Proof.
  intros [[He Hs]|[-> ->]]; [|reflexivity].
  destruct epochs, steps; try congruence. reflexivity.
Qed.

Lemma check_passes (epochs steps : option positive) (st : State) :
  ~ both_or_neither epochs steps ->
  check_epochs_and_steps_arg epochs steps st = (Ok tt, st) /\
  ((exists e, epochs = Some e /\ steps = None) \/
   (exists s, epochs = None /\ steps = Some s)).
Proof.
  unfold both_or_neither. intros H.
  destruct epochs as [e|], steps as [s|]; simpl.
  - exfalso; apply H; left; split; discriminate.
  - split; [reflexivity | left; eauto].
  - split; [reflexivity | right; eauto].
  - exfalso; apply H; right; auto.
Qed.

Lemma both_or_neither_dec (epochs steps : option positive) :
  both_or_neither epochs steps \/ ~ both_or_neither epochs steps.
Proof.
  unfold both_or_neither.
  destruct epochs, steps; intuition congruence.
Qed.

Lemma insert_hook_In (h : Hook) (l : list Hook) : In h (insert_hook h l).
Proof.
  induction l as [|x r IH]; simpl; [now left|].
  destruct (_ <? _); simpl; auto.
Qed.

Lemma hook_list_set_same (l : which) (h : HookList) (t : BaseTrainer) :
  hook_list l (set_hook_list l h t) = h.
Proof. destruct l; reflexivity. Qed.

Lemma hook_list_set_other (l l' : which) (h : HookList) (t : BaseTrainer) :
  l <> l' -> hook_list l' (set_hook_list l h t) = hook_list l' t.
Proof. destruct l, l'; simpl; congruence. Qed.

Lemma registered_In (l : which) (callback : object) (freq : positive)
  (priority : HookPriority) (st : State) :
  In (mkHook callback freq priority)
     (hooks (hook_list l (trainer (registered l callback freq priority st)))).
Proof.
  unfold registered; simpl. rewrite hook_list_set_same. simpl.
  apply insert_hook_In.
Qed.

(** A registration that goes through the choice of the callback. *)
Lemma choose_and_add (l : which) (obj : object) (name : string)
  (freq : positive) (priority : HookPriority) (st : State) :
  (callback <- (if callable obj then ret obj else attribute obj name) ;;
   add_hook l callback freq priority) st =
  if callable obj then (Ok tt, registered l obj freq priority st)
  else match getattr obj name with
       | Some m => (Ok tt, registered l m freq priority st)
       | None => (Raise (AttributeError name), st)
       end.
Proof.
  unfold bind, attribute. destruct (callable obj); [reflexivity|].
  destruct (getattr obj name); reflexivity.
Qed.

(** A cadence-based call either raises the configuration error, or
    passes the check and is the fixed-priority call. *)
Lemma cadence_cases (by_epochs by_steps : positive -> M unit)
  (epochs steps : option positive) (st : State) :
  let m := check_epochs_and_steps_arg epochs steps ;;
           match epochs with
           | Some epochs => by_epochs epochs
           | None => steps <- as_freq steps ;; by_steps steps
           end in
  (both_or_neither epochs steps /\ m st = (Raise one_and_only_one, st)) \/
  (~ both_or_neither epochs steps /\
   ((exists e, epochs = Some e /\ steps = None /\ m st = by_epochs e st) \/
    (exists s, epochs = None /\ steps = Some s /\ m st = by_steps s st))).
Proof.
  intros m. destruct (both_or_neither_dec epochs steps) as [H|H].
  - left. split; [exact H|]. unfold m, bind. now rewrite check_raises.
  - right. split; [exact H|].
    destruct (check_passes epochs steps st H) as [E [[e [-> ->]]|[s0 [-> ->]]]].
    + left. exists e. repeat split.
    + right. exists s0. repeat split.
Qed.

(** What C4 says of one cadence-based call [m]: it raises a
    [ValueError] exactly when both or neither of [epochs] and [steps]
    are given, and a call that raises leaves the state, and so every
    hook list, as it was. *)
Definition configuration_checked (m : M unit) (epochs steps : option positive)
  (st : State) : Prop :=
  ((exists msg, fst (m st) = Raise (ValueError msg)) <->
   both_or_neither epochs steps) /\
  (both_or_neither epochs steps -> m st = (Raise one_and_only_one, st)) /\
  (forall e, fst (m st) = Raise e -> snd (m st) = st).

Lemma cadence_checked (by_epochs by_steps : positive -> M unit)
  (epochs steps : option positive) (st : State) :
  (forall f msg, fst (by_epochs f st) <> Raise (ValueError msg)) ->
  (forall f msg, fst (by_steps f st) <> Raise (ValueError msg)) ->
  (forall f e, fst (by_epochs f st) = Raise e -> snd (by_epochs f st) = st) ->
  (forall f e, fst (by_steps f st) = Raise e -> snd (by_steps f st) = st) ->
  configuration_checked
    (check_epochs_and_steps_arg epochs steps ;;
     match epochs with
     | Some epochs => by_epochs epochs
     | None => steps <- as_freq steps ;; by_steps steps
     end) epochs steps st.
Proof.
  intros Ve Vs Fe Fs. unfold configuration_checked.
  destruct (cadence_cases by_epochs by_steps epochs steps st)
    as [[H E]|[H [[f [-> [-> E]]]|[f [-> [-> E]]]]]];
    cbv zeta in E; rewrite E; simpl.
  - repeat split; auto. intros _. eexists; reflexivity.
  - repeat split.
    + intros [msg Hm]. now apply Ve in Hm.
    + intros Hb; contradiction.
    + intros Hb; contradiction.
    + apply Fe.
  - repeat split.
    + intros [msg Hm]. now apply Vs in Hm.
    + intros Hb; contradiction.
    + intros Hb; contradiction.
    + apply Fs.
Qed.

Lemma choose_and_add_no_ValueError (l : which) (obj : object) (name : string)
  (freq : positive) (priority : HookPriority) (st : State) (msg : string) :
  fst ((callback <- (if callable obj then ret obj else attribute obj name) ;;
        add_hook l callback freq priority) st) <> Raise (ValueError msg).
Proof.
  rewrite choose_and_add. destruct (callable obj); [discriminate|].
  destruct (getattr obj name); discriminate.
Qed.

Lemma choose_and_add_raise (l : which) (obj : object) (name : string)
  (freq : positive) (priority : HookPriority) (st : State) (e : exception) :
  fst ((callback <- (if callable obj then ret obj else attribute obj name) ;;
        add_hook l callback freq priority) st) = Raise e ->
  snd ((callback <- (if callable obj then ret obj else attribute obj name) ;;
        add_hook l callback freq priority) st) = st.
Proof.
  rewrite choose_and_add. destruct (callable obj); [discriminate|].
  destruct (getattr obj name); [discriminate | reflexivity].
Qed.

(** C4. Each of [log_after], [evaluate_after] and [anneal_after] raises
    the configuration error (a [ValueError]) if and only if both of
    [epochs] and [steps] are given or neither is; a call that raises
    adds no hook to any hook list. *)
Theorem cadence_configuration_error (evaluator value : object)
  (epochs steps : option positive) (st : State) :
  configuration_checked (log_after epochs steps) epochs steps st /\
  configuration_checked (evaluate_after evaluator epochs steps) epochs steps st /\
  configuration_checked (anneal_after value epochs steps) epochs steps st.
Proof.
  split; [|split].
  - apply cadence_checked; try discriminate.
  - apply cadence_checked; intros;
      first [ apply choose_and_add_no_ValueError
            | eapply choose_and_add_raise; eassumption ].
  - apply cadence_checked; intros;
      first [ apply choose_and_add_no_ValueError
            | eapply choose_and_add_raise; eassumption ].
Qed.

(** C6. A cadence-based registration is the fixed-priority one:
    [log_after(epochs=e)] is [log_after_epochs(e)], which adds
    [loop.print_logs] to the after-epochs list with frequency [e] and
    the priority [LOGGING]; [log_after(steps=s)] is [log_after_steps(s)]
    on the after-steps list; [evaluate_after] and [anneal_after] are
    their [_after_epochs] and [_after_steps] variants, which register
    with the priorities [EVALUATION] and [ANNEALING]. *)
Theorem cadence_is_fixed_priority (evaluator value : object) (e s : positive)
  (st : State) :
  (log_after (Some e) None st = log_after_epochs e st /\
   log_after_epochs e st = (Ok tt, registered AfterEpochs print_logs e LOGGING st)) /\
  (log_after None (Some s) st = log_after_steps s st /\
   log_after_steps s st = (Ok tt, registered AfterSteps print_logs s LOGGING st)) /\
  (evaluate_after evaluator (Some e) None st = evaluate_after_epochs evaluator e st /\
   forall st', evaluate_after_epochs evaluator e st = (Ok tt, st') ->
               exists callback, st' = registered AfterEpochs callback e EVALUATION st) /\
  (evaluate_after evaluator None (Some s) st = evaluate_after_steps evaluator s st /\
   forall st', evaluate_after_steps evaluator s st = (Ok tt, st') ->
               exists callback, st' = registered AfterSteps callback s EVALUATION st) /\
  (anneal_after value (Some e) None st = anneal_after_epochs value e st /\
   forall st', anneal_after_epochs value e st = (Ok tt, st') ->
               exists callback, st' = registered AfterEpochs callback e ANNEALING st) /\
  (anneal_after value None (Some s) st = anneal_after_steps value s st /\
   forall st', anneal_after_steps value s st = (Ok tt, st') ->
               exists callback, st' = registered AfterSteps callback s ANNEALING st).
Proof.
  assert (H : forall l obj name f p st',
             (callback <- (if callable obj then ret obj else attribute obj name) ;;
              add_hook l callback f p) st = (Ok tt, st') ->
             exists callback, st' = registered l callback f p st).
  { intros l obj name f p st'. rewrite choose_and_add.
    destruct (callable obj); [intros E; inversion E; eauto|].
    destruct (getattr obj name); intros E; inversion E; eauto. }
  repeat split; try reflexivity; apply H.
Qed.

(** What C7 says of one registration [m] on the list [l]: it registers
    [obj] itself when [obj] is callable, and its attribute [name]
    otherwise; the hook is then in the list. *)
Definition registers_chosen (obj : object) (freq : positive) (st : State)
  (l : which) (name : string) (priority : HookPriority) (m : M unit) : Prop :=
  (callable obj = true ->
   m st = (Ok tt, registered l obj freq priority st) /\
   In (mkHook obj freq priority) (hooks (hook_list l (trainer (snd (m st)))))) /\
  (callable obj = false ->
   forall attr, getattr obj name = Some attr ->
   m st = (Ok tt, registered l attr freq priority st) /\
   In (mkHook attr freq priority) (hooks (hook_list l (trainer (snd (m st)))))).

Lemma choose_and_add_chosen (obj : object) (freq : positive) (st : State)
  (l : which) (name : string) (priority : HookPriority) :
  registers_chosen obj freq st l name priority
    (callback <- (if callable obj then ret obj else attribute obj name) ;;
     add_hook l callback freq priority).
Proof.
  unfold registers_chosen. rewrite choose_and_add. split.
  - intros ->. split; [reflexivity | apply registered_In].
  - intros -> attr ->. split; [reflexivity | apply registered_In].
Qed.

(** C7. [evaluate_after_steps] and [evaluate_after_epochs] register the
    evaluator itself when it is callable, and its [run] attribute
    otherwise; [anneal_after_steps] and [anneal_after_epochs] do the
    same with the [anneal] attribute. *)
Theorem registered_callback (obj : object) (freq : positive) (st : State) :
  registers_chosen obj freq st AfterSteps "run" EVALUATION
    (evaluate_after_steps obj freq) /\
  registers_chosen obj freq st AfterEpochs "run" EVALUATION
    (evaluate_after_epochs obj freq) /\
  registers_chosen obj freq st AfterSteps "anneal" ANNEALING
    (anneal_after_steps obj freq) /\
  registers_chosen obj freq st AfterEpochs "anneal" ANNEALING
    (anneal_after_epochs obj freq).
Proof. split; [|split; [|split]]; apply choose_and_add_chosen. Qed.

(** *** What holds all along the body of [run()] *)

(** The trainer is running. *)
Definition fitting (st : State) : Prop := _is_fitting (trainer st) = true.

(** Two computations agree from every state in which the trainer is
    running; they leave it running and only add to the record. *)
Definition agree {T : Type} (m1 m2 : M T) : Prop :=
  forall st, fitting st ->
    m1 st = m2 st /\
    fitting (snd (m1 st)) /\
    exists t, log (snd (m1 st)) = log st ++ t.

(** Two ways of calling [run()] that agree while the trainer is running,
    and then change nothing. *)
Definition refused (self1 self2 : M unit) : Prop :=
  forall st, fitting st -> self1 st = self2 st /\ snd (self1 st) = st.

Lemma agree_ret {T : Type} (v : T) : agree (ret v) (ret v).
Proof. intros st H; simpl. repeat split; auto. exists []. now rewrite app_nil_r. Qed.

Lemma agree_emit (e : event) : agree (emit e) (emit e).
Proof. intros st H; simpl. repeat split; auto. now exists [e]. Qed.

Lemma agree_extern {T : Type} (f : World -> outcome T * World) :
  agree (extern f) (extern f).
Proof.
  intros st H; unfold extern. destruct (f (world st)) as [r w]; simpl.
  repeat split; auto. exists []. now rewrite app_nil_r.
Qed.

Lemma agree_inspect {T : Type} (f : World -> outcome T) :
  agree (inspect f) (inspect f).
Proof. intros st H; simpl. repeat split; auto. exists []. now rewrite app_nil_r. Qed.

Lemma is_fitting_set_hook_list (l : which) (h : HookList) (t : BaseTrainer) :
  _is_fitting (set_hook_list l h t) = _is_fitting t.
Proof. destruct l; reflexivity. Qed.

Lemma agree_on_hook_list (l : which) (f : HookList -> HookList) :
  agree (on_hook_list l f) (on_hook_list l f).
Proof.
  intros st H; unfold fitting; simpl. rewrite is_fitting_set_hook_list.
  repeat split; auto. exists []. now rewrite app_nil_r.
Qed.

Lemma agree_bind {T U : Type} (m1 m2 : M T) (f1 f2 : T -> M U) :
  agree m1 m2 -> (forall v, agree (f1 v) (f2 v)) -> agree (bind m1 f1) (bind m2 f2).
Proof.
  intros Hm Hf st H. unfold bind.
  destruct (Hm st H) as [E [F [t L]]]. rewrite <- E.
  destruct (m1 st) as [[v|e] st1]; simpl in *.
  - destruct (Hf v st1 F) as [E' [F' [t' L']]].
    repeat split; auto. exists (t ++ t'). now rewrite L', L, app_assoc.
  - repeat split; auto. now exists t.
Qed.

Lemma agree_for_list {T : Type} (xs : list T) (b1 b2 : T -> M unit) :
  (forall x, agree (b1 x) (b2 x)) -> agree (for_list xs b1) (for_list xs b2).
Proof.
  intros Hb. induction xs as [|x rest IH]; simpl.
  - apply agree_ret.
  - apply agree_bind; auto.
Qed.

Lemma fitting_set_world (w : World) (st : State) :
  fitting st -> fitting (set_world w st).
Proof. auto. Qed.

Lemma agree_for_gen {T : Type} (yielded : T -> event) (b1 b2 : T -> M unit) :
  (forall x, agree (b1 x) (b2 x)) ->
  forall g st, fitting st ->
    for_gen g yielded b1 st = for_gen g yielded b2 st /\
    fitting (snd (for_gen g yielded b1 st)) /\
    exists t, log (snd (for_gen g yielded b1 st)) = log st ++ t.
Proof.
  intros Hb. induction g as [w|e w|item w rest IH]; intros st H.
  - simpl. repeat split; auto. exists []. now rewrite app_nil_r.
  - simpl. repeat split; auto. exists []. now rewrite app_nil_r.
  - cbn [for_gen].
    assert (Hstep : agree (emit (yielded item) ;; b1 item)
                          (emit (yielded item) ;; b2 item))
      by (apply agree_bind; [apply agree_emit | intros _; apply Hb]).
    destruct (Hstep (set_world w st) (fitting_set_world w st H)) as [E [F [t L]]].
    rewrite <- E.
    destruct ((emit (yielded item) ;; b1 item) (set_world w st)) as [[v|e] st1];
      simpl in *.
    + destruct (IH (world st1) st1 F) as [E' [F' [t' L']]].
      repeat split; auto. exists (t ++ t'). now rewrite L', L, app_assoc.
    + repeat split; auto. now exists t.
Qed.

Lemma agree_for_each {T : Type} (it : World -> gen T) (yielded : T -> event)
  (b1 b2 : T -> M unit) :
  (forall x, agree (b1 x) (b2 x)) ->
  agree (for_each it yielded b1) (for_each it yielded b2).
Proof. intros Hb st H. unfold for_each. now apply agree_for_gen. Qed.

(** A called object leaves the record of the calls of [run()] and the
    running flag as they are, whatever its calls of [run()] come to. *)
Lemma exec_refused (self1 self2 : M unit) :
  refused self1 self2 ->
  forall a st, fitting st ->
    exec self1 a st = exec self2 a st /\
    fitting (snd (exec self1 a st)) /\
    log (snd (exec self1 a st)) = log st.
Proof.
  intros Hs. induction a as [r w|w k IH|f k IH]; intros st H.
  - simpl. split; [reflexivity | split; [exact H | reflexivity]].
  - cbn [exec].
    destruct (Hs (set_world w st) (fitting_set_world w st H)) as [E Hst].
    rewrite <- E. destruct (self1 (set_world w st)) as [r st1]; simpl in Hst; subst.
    exact (IH r (world (set_world w st)) (set_world w st)
              (fitting_set_world w st H)).
  - cbn [exec].
    exact (IH (trainer st)
              (mkState (with_hook_lists (f (trainer st)) (trainer st))
                       (world st) (log st)) H).
Qed.

Lemma agree_perform (self1 self2 : M unit) (f : World -> action) :
  refused self1 self2 -> agree (perform self1 f) (perform self2 f).
Proof.
  intros Hs st H. unfold perform.
  destruct (exec_refused self1 self2 Hs (f (world st)) st H) as [E [F L]].
  split; [exact E|]. split; [exact F|].
  exists []. rewrite L. now rewrite app_nil_r.
Qed.

Lemma agree_invoke (self1 self2 : M unit) (callback : object) :
  refused self1 self2 -> agree (invoke self1 callback) (invoke self2 callback).
Proof. intros Hs. now apply agree_perform. Qed.

Lemma agree_call_hooks (self1 self2 : M unit) (l : which) :
  refused self1 self2 -> agree (call_hooks self1 l) (call_hooks self2 l).
Proof.
  intros Hs. unfold call_hooks.
  apply agree_bind; [apply agree_emit | intros _].
  apply agree_bind; [apply agree_on_hook_list | intros _].
  intros st H.
  apply (agree_for_list _ (fun h => invoke self1 (hook_callback h))
                          (fun h => invoke self2 (hook_callback h)));
    [intros h; now apply agree_invoke | exact H].
Qed.

Lemma agree_reset (l : which) : agree (reset l) (reset l).
Proof.
  unfold reset. apply agree_bind; [apply agree_emit | intros _].
  apply agree_on_hook_list.
Qed.

(** Agreement of two computations built alike, part by part. *)
Ltac agree_parts Hs :=
  repeat match goal with
         | |- agree (bind _ _) (bind _ _) => apply agree_bind; [|intros ?]
         | |- agree (emit _) _ => apply agree_emit
         | |- agree (inspect _) _ => apply agree_inspect
         | |- agree (extern _) _ => apply agree_extern
         | |- agree (perform _ _) _ => apply agree_perform; exact Hs
         | |- agree (reset _) _ => apply agree_reset
         | |- agree (call_hooks _ _) _ => apply agree_call_hooks; exact Hs
         | |- agree (for_list _ _) _ => apply agree_for_list; intros ?
         | |- agree (for_each _ _ _) _ => apply agree_for_each; intros ?
         end.

Lemma agree_run_body (self1 self2 : M unit) :
  refused self1 self2 -> agree (run_body self1) (run_body self2).
Proof. intros Hs. unfold run_body. agree_parts Hs. Qed.

(** [run()] entered while the trainer is running raises and changes
    nothing. *)
Lemma run_while_fitting (depth : nat) (st : State) :
  fitting st -> run (S depth) st = (Raise not_reentrant, st).
Proof. intros H. simpl. unfold fitting in H. now rewrite H. Qed.

Lemma refused_run (depth : nat) : refused (run depth) (run depth).
Proof.
  intros st H. split; [reflexivity|].
  destruct depth; [reflexivity | now rewrite run_while_fitting].
Qed.

Lemma refused_run_raise (depth : nat) : refused (run (S depth)) (raise not_reentrant).
Proof. intros st H. now rewrite run_while_fitting. Qed.

(** [run()] entered while the trainer is idle. *)
Lemma run_while_idle (depth : nat) (st : State) :
  _is_fitting (trainer st) = false ->
  run (S depth) st =
  (update_trainer (set_is_fitting true) ;;
   try_finally (run_body (run depth)) (set_is_fitting false)) st.
Proof. intros H. simpl. now rewrite H. Qed.

(** The state in which the body of [run()] is entered. *)
Definition entered (st : State) : State :=
  mkState (set_is_fitting true (trainer st)) (world st) (log st).

Lemma run_from_idle (depth : nat) (st : State) :
  _is_fitting (trainer st) = false ->
  run (S depth) st =
  (fst (run_body (run depth) (entered st)),
   mkState (set_is_fitting false (trainer (snd (run_body (run depth) (entered st)))))
           (world (snd (run_body (run depth) (entered st))))
           (log (snd (run_body (run depth) (entered st))))).
Proof.
  intros H. rewrite (run_while_idle depth st H).
  unfold bind, update_trainer, try_finally. fold (entered st).
  now destruct (run_body (run depth) (entered st)).
Qed.

Lemma run_leaves_idle (depth : nat) (st : State) :
  _is_fitting (trainer st) = false ->
  _is_fitting (trainer (snd (run (S depth) st))) = false.
Proof. intros H. now rewrite (run_from_idle depth st H). Qed.

(** The body of [run()] records the request for the session before
    anything else. *)
Lemma run_body_log (self_run : M unit) (st : State) :
  refused self_run self_run ->
  fitting st ->
  exists t, log (snd (run_body self_run st)) = log st ++ EvGetSession :: t.
Proof.
  intros Hs H.
  assert (Hrest : forall T (m : M T),
             agree m m ->
             exists t, log (snd ((emit EvGetSession ;; m) st)) =
                       log st ++ EvGetSession :: t).
  { intros T m Hm. unfold bind. simpl.
    destruct (Hm (mkState (trainer st) (world st) (log st ++ [EvGetSession])) H)
      as [_ [_ [t L]]].
    destruct (m _) as [r st1]; simpl in *.
    exists t. now rewrite L, <- app_assoc. }
  unfold run_body. apply Hrest. agree_parts Hs.
Qed.

(** C2. A call of [run()] that passes the re-entrancy guard ends with
    the trainer not running, whether the body returns or raises; what
    the caller gets is what the body returned or raised. *)
Theorem run_restores_idle (depth : nat) (st : State) :
  _is_fitting (trainer st) = false ->
  forall r st',
    run (S depth) st = (r, st') ->
    _is_fitting (trainer st') = false /\
    r = fst (run_body (run depth) (entered st)).
Proof.
  intros H r st' E. rewrite (run_from_idle depth st H) in E.
  inversion E; subst. split; reflexivity.
Qed.

(** C3. [run()] raises the re-entrancy error at its guard, before it
    makes any call and with everything left as it was, if and only if
    the trainer is running when it is entered; entered while the
    trainer is idle it passes the guard and asks for the session first,
    whatever it raises later (the same error, for one, when a hook that
    calls [run()] lets the error of that call through).  So a call of
    [run()] made by a called object while the trainer is running gets
    this error: the outer run goes on as if every such call were a
    raise of it, and ends with the trainer not running. *)
Theorem run_reentrancy (depth : nat) (st : State) :
  (run (S depth) st = (Raise not_reentrant, st) <->
   _is_fitting (trainer st) = true) /\
  (_is_fitting (trainer st) = false ->
   exists t, log (snd (run (S depth) st)) = log st ++ EvGetSession :: t) /\
  (forall w k,
     _is_fitting (trainer st) = true ->
     exec (run (S depth)) (Reenter w k) st =
     exec (run (S depth)) (k (Raise not_reentrant) w) (set_world w st)) /\
  (_is_fitting (trainer st) = false ->
   run (S (S depth)) st =
     (update_trainer (set_is_fitting true) ;;
      try_finally (run_body (raise not_reentrant)) (set_is_fitting false)) st /\
   _is_fitting (trainer (snd (run (S (S depth)) st))) = false).
Proof.
  assert (Hlog : _is_fitting (trainer st) = false ->
                 exists t, log (snd (run (S depth) st)) =
                           log st ++ EvGetSession :: t).
  { intros H. rewrite (run_from_idle depth st H).
    destruct (run_body_log (run depth) (entered st) (refused_run depth))
      as [t L]; [reflexivity|].
    exists t. exact L. }
  split; [split|split; [exact Hlog|split]].
  - intros E. destruct (_is_fitting (trainer st)) eqn:H; [reflexivity|].
    destruct (Hlog eq_refl) as [t L]. rewrite E in L. simpl in L.
    apply (f_equal (@List.length event)) in L.
    rewrite length_app in L. simpl in L. lia.
  - intros H. now apply run_while_fitting.
  - intros w k H. cbn [exec].
    rewrite (run_while_fitting depth (set_world w st)) by exact H.
    reflexivity.
  - intros H. split; [|now apply run_leaves_idle].
    rewrite (run_while_idle (S depth) st H).
    unfold bind, update_trainer, try_finally. fold (entered st).
    destruct (agree_run_body (run (S depth)) (raise not_reentrant)
                (refused_run_raise depth) (entered st)) as [E _];
      [reflexivity|].
    now rewrite E.
Qed.

(** *** The calls of a run that returns *)

Definition which_eqb (a b : which) : bool :=
  match a, b with
  | BeforeEpochs, BeforeEpochs
  | BeforeSteps, BeforeSteps
  | AfterSteps, AfterSteps
  | AfterEpochs, AfterEpochs => true
  | _, _ => false
  end.

(** The number of triggers of the list [l] in a record of calls. *)
Fixpoint calls_of (l : which) (t : list event) : Z :=
  match t with
  | [] => 0
  | EvCallHooks l' :: rest => (if which_eqb l l' then 1 else 0) + calls_of l rest
  | _ :: rest => calls_of l rest
  end.

Lemma calls_of_app (l : which) (t1 t2 : list event) :
  calls_of l (t1 ++ t2) = calls_of l t1 + calls_of l t2.
Proof.
  induction t1 as [|e r IH]; simpl; [reflexivity|].
  destruct e; rewrite ?IH; lia.
Qed.

(** The iterator [g], asked until it stops, yields the items [items]
    in this order ([w'] is the world in which it is resumed). *)
Inductive yields {T : Type} : gen T -> list T -> Prop :=
| yields_stop w : yields (Stop w) []
| yields_item item w rest w' items :
    yields (rest w') items -> yields (Yield item w rest) (item :: items).

(** The payloads [ps] are those of one call of [_iter_steps()]: what
    the iterator it returned has yielded until it stopped. *)
Definition yielded_by_iter_steps (ps : list payload) : Prop :=
  exists w steps w',
    _iter_steps w = (Ok steps, w') /\ yields (steps w') ps.

(** A called object that leaves the hook lists as it finds them. *)
Inductive tame : action -> Prop :=
| tame_finish r w : tame (Finish r w)
| tame_reenter w k : (forall r w', tame (k r w')) -> tame (Reenter w k)
| tame_touch f k :
    (forall t, with_hook_lists (f t) t = t) ->
    (forall t, tame (k t)) ->
    tame (Touch f k).

(** Neither the objects called nor [_run_step] change the hook
    lists. *)
Definition quiet : Prop :=
  (forall o w, tame (call o w)) /\ (forall s p w, tame (_run_step s p w)).

Lemma exec_tame (self_run : M unit) (a : action) :
  refused self_run self_run ->
  tame a ->
  forall st, fitting st -> trainer (snd (exec self_run a st)) = trainer st.
Proof.
  intros Hs. induction 1 as [r w|w k Hk IH|f k Hf Hk IH]; intros st H.
  - reflexivity.
  - cbn [exec].
    destruct (Hs (set_world w st) (fitting_set_world w st H)) as [_ Hst].
    destruct (self_run (set_world w st)) as [r st1]; simpl in Hst; subst.
    now rewrite IH.
  - cbn [exec]. rewrite Hf. now rewrite IH.
Qed.

(** [st'] comes after [st] by the calls [t]: they are added to the
    record, the trainer is running as before, and, when no called
    object changes the hook lists, the hooks are the same and every
    trigger counter has grown by the number of triggers among the
    calls. *)
Definition follows (st st' : State) (t : list event) : Prop :=
  log st' = log st ++ t /\
  _is_fitting (trainer st') = _is_fitting (trainer st) /\
  (quiet ->
   forall l,
     hooks (hook_list l (trainer st')) = hooks (hook_list l (trainer st)) /\
     counter (hook_list l (trainer st')) =
       counter (hook_list l (trainer st)) + calls_of l t).

Lemma follows_refl (st : State) : follows st st [].
Proof.
  unfold follows. rewrite app_nil_r. repeat split; simpl; lia.
Qed.

Lemma follows_trans (st1 st2 st3 : State) (t1 t2 : list event) :
  follows st1 st2 t1 -> follows st2 st3 t2 -> follows st1 st3 (t1 ++ t2).
Proof.
  intros [L1 [F1 H1]] [L2 [F2 H2]]. unfold follows.
  rewrite L2, L1, app_assoc. split; [reflexivity|]. split; [congruence|].
  intros Q l. destruct (H1 Q l) as [A1 B1], (H2 Q l) as [A2 B2].
  rewrite calls_of_app. split; [congruence | lia].
Qed.

Lemma follows_fitting (st st' : State) (t : list event) :
  follows st st' t -> fitting st -> fitting st'.
Proof. intros [_ [F _]] H. unfold fitting in *. congruence. Qed.

Lemma follows_set_world (w : World) (st : State) : follows st (set_world w st) [].
Proof.
  unfold follows; simpl. rewrite app_nil_r. repeat split; lia.
Qed.

Lemma emit_follows (e : event) (st : State) :
  (forall l, calls_of l [e] = 0) ->
  follows st (snd (emit e st)) [e].
Proof.
  intros He. unfold follows; simpl log; simpl trainer.
  repeat split. rewrite (He l). lia.
Qed.

Lemma extern_follows {T : Type} (f : World -> outcome T * World) (st : State) :
  follows st (snd (extern f st)) [].
Proof.
  unfold extern. destruct (f (world st)) as [r w]. apply follows_set_world.
Qed.

(** A called object adds nothing to the record of the calls of
    [run()]. *)
Lemma perform_follows (self_run : M unit) (f : World -> action) (st : State) :
  refused self_run self_run ->
  fitting st ->
  (quiet -> forall w, tame (f w)) ->
  follows st (snd (perform self_run f st)) [].
Proof.
  intros Hs H Ht. unfold perform.
  destruct (exec_refused self_run self_run Hs (f (world st)) st H) as [_ [F L]].
  unfold follows. rewrite L, app_nil_r. split; [reflexivity|].
  split; [unfold fitting in *; congruence|].
  intros Q l. rewrite (exec_tame self_run _ Hs (Ht Q (world st)) st H).
  simpl. split; [reflexivity | lia].
Qed.

Lemma invoke_follows (self_run : M unit) (callback : object) (st : State) :
  refused self_run self_run ->
  fitting st ->
  follows st (snd (invoke self_run callback st)) [].
Proof.
  intros Hs H. apply perform_follows; [exact Hs | exact H|].
  intros [Q _] w. apply Q.
Qed.

Lemma hooks_follow (self_run : M unit) (hs : list Hook) :
  refused self_run self_run ->
  forall st, fitting st ->
    follows st (snd (for_list hs (fun h => invoke self_run (hook_callback h)) st)) [].
Proof.
  intros Hs. induction hs as [|h rest IH]; intros st H; simpl.
  - apply follows_refl.
  - unfold bind.
    pose proof (invoke_follows self_run (hook_callback h) st Hs H) as F1.
    destruct (invoke self_run (hook_callback h) st) as [[v|e] st1];
      simpl in F1; [|exact F1].
    exact (follows_trans _ _ _ _ _ F1 (IH st1 (follows_fitting _ _ _ F1 H))).
Qed.

Lemma which_eqb_refl (l : which) : which_eqb l l = true.
Proof. now destruct l. Qed.

Lemma call_hooks_follows (self_run : M unit) (l : which) (st : State) :
  refused self_run self_run ->
  fitting st ->
  follows st (snd (call_hooks self_run l st)) [EvCallHooks l].
Proof.
  intros Hs H. unfold call_hooks, bind, emit, on_hook_list, update_trainer.
  cbv beta iota zeta.
  match goal with
  | |- follows _ (snd (for_list ?hs _ ?s)) _ =>
    assert (F0 : follows st s [EvCallHooks l]);
      [|pose proof (follows_trans _ _ _ _ _ F0
                      (hooks_follow self_run hs Hs s (follows_fitting _ _ _ F0 H)))
          as F; exact F]
  end.
  unfold follows; simpl.
  split; [reflexivity|]. split; [apply is_fitting_set_hook_list|].
  intros _ l'. destruct l, l'; simpl; split; auto; lia.
Qed.

(** The first step of a sequence that returns has returned. *)
Lemma bind_ok {T U : Type} (m : M T) (f : T -> M U) (st st' : State) (u : U) :
  bind m f st = (Ok u, st') ->
  exists v st1, m st = (Ok v, st1) /\ f v st1 = (Ok u, st').
Proof.
  unfold bind. destruct (m st) as [[v|e] st1]; intros E; [eauto | discriminate].
Qed.

(** A loop over an iterator that returns has taken every item of the
    iterator: each is recorded, followed by the calls [calls x a] of
    the body on it. *)
Lemma for_gen_follows {T Aux : Type} (yielded : T -> event) (body : T -> M unit)
  (calls : T -> Aux -> list event) (good : Aux -> Prop) :
  (forall x l, calls_of l [yielded x] = 0) ->
  (forall x st st', fitting st -> body x st = (Ok tt, st') ->
                    exists a, good a /\ follows st st' (calls x a)) ->
  forall g st st', fitting st ->
    for_gen g yielded body st = (Ok tt, st') ->
    exists items : list (T * Aux),
      yields g (map fst items) /\
      Forall good (map snd items) /\
      follows st st'
        (flat_map (fun it => yielded (fst it) :: calls (fst it) (snd it)) items).
Proof.
  intros Hy Hb. induction g as [w|e w|item w rest IH]; intros st st' H E.
  - simpl in E. inversion E; subst. exists [].
    split; [constructor|]. split; [constructor | apply follows_set_world].
  - discriminate.
  - cbn [for_gen] in E.
    destruct ((emit (yielded item) ;; body item) (set_world w st))
      as [[[]|e] st1] eqn:E1; [|discriminate].
    apply bind_ok in E1. destruct E1 as [[] [st0 [E0 E1]]].
    pose proof (emit_follows (yielded item) (set_world w st) (Hy item)) as F0.
    rewrite E0 in F0; simpl in F0.
    pose proof (follows_trans _ _ _ _ _ (follows_set_world w st) F0) as F0'.
    destruct (Hb item st0 st1 (follows_fitting _ _ _ F0' H) E1) as [a [Ga F1]].
    pose proof (follows_trans _ _ _ _ _ F0' F1) as F1'.
    destruct (IH (world st1) st1 st' (follows_fitting _ _ _ F1' H) E)
      as [items [Y [G F2]]].
    exists ((item, a) :: items). simpl.
    split; [econstructor; exact Y|]. split; [now constructor|].
    exact (follows_trans _ _ _ _ _ F1' F2).
Qed.

(** The calls of one step, and of one epoch with the payloads [ps]. *)
Definition step_calls (sess : session) (p : payload) : list event :=
  [EvPayload p; EvCallHooks BeforeSteps; EvRunStep sess p; EvCallHooks AfterSteps].

Definition epoch_calls (sess : session) (epoch : Z * list payload) : list event :=
  [EvEpoch (fst epoch); EvCallHooks BeforeEpochs; EvIterSteps] ++
  flat_map (step_calls sess) (snd epoch) ++
  [EvCallHooks AfterEpochs].

(** The calls before the loop. *)
Definition opening_calls : list event :=
  [EvGetSession; EvEnsureInitialized; EvPrintSummary] ++
  map EvReset all_hook_lists ++ [EvIterEpochs].

Ltac next_call E v st1 E1 :=
  apply bind_ok in E; destruct E as [v [st1 [E1 E]]].

Ltac after F H E1 lemma :=
  let F1 := fresh "F" in
  pose proof lemma as F1; rewrite E1 in F1; simpl snd in F1;
  pose proof (follows_trans _ _ _ _ _ F F1) as H; clear F1.

Lemma step_follows (self_run : M unit) (sess : session) (p : payload)
  (st st' : State) :
  refused self_run self_run ->
  fitting st ->
  (call_hooks self_run BeforeSteps ;;
   emit (EvRunStep sess p) ;;
   perform self_run (_run_step sess p) ;;
   call_hooks self_run AfterSteps) st = (Ok tt, st') ->
  follows st st'
    [EvCallHooks BeforeSteps; EvRunStep sess p; EvCallHooks AfterSteps].
Proof.
  intros Hs H E.
  next_call E v1 st1 E1. next_call E v2 st2 E2. next_call E v3 st3 E3.
  pose proof (call_hooks_follows self_run BeforeSteps st Hs H) as F1.
  rewrite E1 in F1; simpl snd in F1.
  after F1 F2 E2 (emit_follows (EvRunStep sess p) st1 (fun l => eq_refl)).
  after F2 F3 E3 (perform_follows self_run (_run_step sess p) st2 Hs
                    (follows_fitting _ _ _ F2 H)
                    (fun Q => proj2 Q sess p)).
  after F3 F4 E (call_hooks_follows self_run AfterSteps st3 Hs
                   (follows_fitting _ _ _ F3 H)).
  simpl in F4. exact F4.
Qed.

Lemma steps_follow (self_run : M unit) (sess : session)
  (steps : World -> gen payload) (st st' : State) :
  refused self_run self_run ->
  fitting st ->
  for_each steps EvPayload (fun payload =>
    call_hooks self_run BeforeSteps ;;
    emit (EvRunStep sess payload) ;;
    perform self_run (_run_step sess payload) ;;
    call_hooks self_run AfterSteps) st = (Ok tt, st') ->
  exists ps,
    yields (steps (world st)) ps /\
    follows st st' (flat_map (step_calls sess) ps).
Proof.
  intros Hs H E. unfold for_each in E.
  destruct (for_gen_follows (Aux := unit) EvPayload _
              (fun p _ => [EvCallHooks BeforeSteps; EvRunStep sess p;
                           EvCallHooks AfterSteps])
              (fun _ => True)
              (fun _ _ => eq_refl)
              (fun x s s' Hf Eb =>
                 ex_intro _ tt (conj I (step_follows self_run sess x s s' Hs Hf Eb)))
              _ st st' H E) as [items [Y [_ F]]].
  exists (map fst items). split; [exact Y|].
  rewrite flat_map_concat_map, map_map, <- flat_map_concat_map. exact F.
Qed.

Lemma epoch_follows (self_run : M unit) (sess : session) (st st' : State) :
  refused self_run self_run ->
  fitting st ->
  (call_hooks self_run BeforeEpochs ;;
   emit EvIterSteps ;;
   steps <- extern _iter_steps ;;
   for_each steps EvPayload (fun payload =>
     call_hooks self_run BeforeSteps ;;
     emit (EvRunStep sess payload) ;;
     perform self_run (_run_step sess payload) ;;
     call_hooks self_run AfterSteps) ;;
   call_hooks self_run AfterEpochs) st = (Ok tt, st') ->
  exists ps,
    yielded_by_iter_steps ps /\
    follows st st'
      ([EvCallHooks BeforeEpochs; EvIterSteps] ++
       flat_map (step_calls sess) ps ++ [EvCallHooks AfterEpochs]).
Proof.
  intros Hs H E.
  next_call E v1 st1 E1. next_call E v2 st2 E2. next_call E steps st3 E3.
  next_call E v4 st4 E4. destruct v4.
  pose proof (call_hooks_follows self_run BeforeEpochs st Hs H) as F1.
  rewrite E1 in F1; simpl snd in F1.
  after F1 F2 E2 (emit_follows EvIterSteps st1 (fun l => eq_refl)).
  after F2 F3 E3 (extern_follows _iter_steps st2).
  destruct (steps_follow self_run sess steps st3 st4 Hs
              (follows_fitting _ _ _ F3 H) E4) as [ps [Y F4]].
  pose proof (follows_trans _ _ _ _ _ F3 F4) as F4'.
  after F4' F5 E (call_hooks_follows self_run AfterEpochs st4 Hs
                    (follows_fitting _ _ _ F4' H)).
  exists ps. split; [|simpl in F5; exact F5].
  exists (world st2), steps, (world st3). split; [|exact Y].
  unfold extern in E3. destruct (_iter_steps (world st2)) as [r w].
  now inversion E3.
Qed.

(** The loop of [run()] over the epochs, with the session [sess]. *)
Definition epochs_loop (self_run : M unit) (sess : session) : M unit :=
  for_each iter_epochs EvEpoch (fun epoch =>
    call_hooks self_run BeforeEpochs ;;
    emit EvIterSteps ;;
    steps <- extern _iter_steps ;;
    for_each steps EvPayload (fun payload =>
      call_hooks self_run BeforeSteps ;;
      emit (EvRunStep sess payload) ;;
      perform self_run (_run_step sess payload) ;;
      call_hooks self_run AfterSteps) ;;
    call_hooks self_run AfterEpochs).

Lemma epochs_follow (self_run : M unit) (sess : session) (st st' : State) :
  refused self_run self_run ->
  fitting st ->
  epochs_loop self_run sess st = (Ok tt, st') ->
  exists epochs,
    yields (iter_epochs (world st)) (map fst epochs) /\
    Forall yielded_by_iter_steps (map snd epochs) /\
    follows st st' (flat_map (epoch_calls sess) epochs).
Proof.
  intros Hs H E. unfold epochs_loop in E. unfold for_each in E at 1.
  destruct (for_gen_follows (Aux := list payload) EvEpoch _
              (fun _ ps => [EvCallHooks BeforeEpochs; EvIterSteps] ++
                           flat_map (step_calls sess) ps ++
                           [EvCallHooks AfterEpochs])
              yielded_by_iter_steps
              (fun _ _ => eq_refl)
              (fun x s s' Hf Eb => epoch_follows self_run sess s s' Hs Hf Eb)
              _ st st' H E) as [items F].
  now exists items.
Qed.

(** The trainer after the resets of [run()]: the four counters are
    zero. *)
Definition reset_all (t : BaseTrainer) : BaseTrainer :=
  mkTrainer (HookList_reset (before_epochs t)) (HookList_reset (after_epochs t))
            (HookList_reset (before_steps t)) (HookList_reset (after_steps t))
            (_is_fitting t).

(** The body of [run()], by the outcomes of its first three calls: if
    they return, the four hook lists are reset in the order of
    [hook_lists] and the loop is entered. *)
Lemma run_body_unfold (self_run : M unit) (st : State) :
  run_body self_run st =
  match get_default_session_or_error (world st) with
  | Raise e =>
    (Raise e, mkState (trainer st) (world st) (log st ++ [EvGetSession]))
  | Ok sess =>
    match ensure_variables_initialized (world st) with
    | (Raise e, w1) =>
      (Raise e,
       mkState (trainer st) w1 (log st ++ [EvGetSession; EvEnsureInitialized]))
    | (Ok _, w1) =>
      match print_training_summary w1 with
      | (Raise e, w2) =>
        (Raise e,
         mkState (trainer st) w2
                 (log st ++ [EvGetSession; EvEnsureInitialized; EvPrintSummary]))
      | (Ok _, w2) =>
        epochs_loop self_run sess
          (mkState (reset_all (trainer st)) w2 (log st ++ opening_calls))
      end
    end
  end.
Proof.
  unfold run_body. unfold bind, emit, inspect, extern, set_world.
  cbn [world trainer log fst snd].
  destruct (get_default_session_or_error (world st)) as [sess|e]; [|reflexivity].
  destruct (ensure_variables_initialized (world st)) as [[[]|e] w1].
  2:{ cbn [world trainer log fst snd]. now rewrite <- app_assoc. }
  cbn [world trainer log fst snd].
  destruct (print_training_summary w1) as [[[]|e] w2].
  2:{ cbn [world trainer log fst snd]. now rewrite <- !app_assoc. }
  cbn [world trainer log fst snd].
  unfold all_hook_lists. cbn [for_list].
  unfold reset, bind, emit, on_hook_list, update_trainer, ret.
  cbn [world trainer log fst snd].
  unfold epochs_loop, bind, emit, extern, set_world.
  f_equal. f_equal.
  unfold opening_calls, all_hook_lists. simpl map.
  rewrite <- !app_assoc. reflexivity.
Qed.

(** The number of triggers of each list over the epochs of a run: one
    per epoch before and after it, one per step before and after it. *)
Definition triggers (l : which) (epochs : list (Z * list payload)) : Z :=
  match l with
  | BeforeEpochs | AfterEpochs => Z.of_nat (List.length epochs)
  | BeforeSteps | AfterSteps => Z.of_nat (List.length (flat_map snd epochs))
  end.

Lemma calls_of_steps (l : which) (sess : session) (ps : list payload) :
  calls_of l (flat_map (step_calls sess) ps) =
  match l with
  | BeforeSteps | AfterSteps => Z.of_nat (List.length ps)
  | _ => 0
  end.
Proof.
  induction ps as [|p r IH]; [now destruct l|].
  cbn [flat_map]. rewrite calls_of_app, IH.
  destruct l; simpl calls_of; simpl List.length; lia.
Qed.

Lemma calls_of_epochs (l : which) (sess : session) (epochs : list (Z * list payload)) :
  calls_of l (flat_map (epoch_calls sess) epochs) = triggers l epochs.
Proof.
  induction epochs as [|[e ps] r IH]; [now destruct l|].
  cbn [flat_map]. rewrite calls_of_app, IH. unfold epoch_calls.
  rewrite !calls_of_app, calls_of_steps. unfold triggers.
  cbn [flat_map snd fst]. rewrite length_app.
  destruct l; simpl calls_of; simpl List.length; lia.
Qed.

Lemma hook_list_set_is_fitting (l : which) (b : bool) (t : BaseTrainer) :
  hook_list l (set_is_fitting b t) = hook_list l t.
Proof. now destruct l. Qed.

Lemma hook_list_reset_all (l : which) (t : BaseTrainer) :
  hook_list l (reset_all t) = HookList_reset (hook_list l t).
Proof. now destruct l. Qed.

(** What a body of [run()] that returns has done. *)
Lemma run_body_follows (self_run : M unit) (st st' : State) :
  refused self_run self_run ->
  fitting st ->
  run_body self_run st = (Ok tt, st') ->
  exists sess w1 w2 epochs,
    get_default_session_or_error (world st) = Ok sess /\
    ensure_variables_initialized (world st) = (Ok tt, w1) /\
    print_training_summary w1 = (Ok tt, w2) /\
    yields (iter_epochs w2) (map fst epochs) /\
    Forall yielded_by_iter_steps (map snd epochs) /\
    log st' = log st ++ opening_calls ++ flat_map (epoch_calls sess) epochs /\
    _is_fitting (trainer st') = true /\
    (quiet ->
     forall l,
       hooks (hook_list l (trainer st')) = hooks (hook_list l (trainer st)) /\
       counter (hook_list l (trainer st')) = triggers l epochs).
Proof.
  intros Hs H E. rewrite run_body_unfold in E.
  destruct (get_default_session_or_error (world st)) as [sess|e] eqn:E1;
    [|discriminate].
  destruct (ensure_variables_initialized (world st)) as [[[]|e] w1] eqn:E2;
    [|discriminate].
  destruct (print_training_summary w1) as [[[]|e] w2] eqn:E3; [|discriminate].
  destruct (epochs_follow self_run sess
              (mkState (reset_all (trainer st)) w2 (log st ++ opening_calls))
              st' Hs H E) as [epochs [Y [G [L [B C]]]]].
  exists sess, w1, w2, epochs. cbn [world log trainer] in *.
  split; [reflexivity|]. split; [reflexivity|]. split; [exact E3|].
  split; [exact Y|]. split; [exact G|].
  split; [now rewrite L, <- app_assoc|].
  split; [rewrite B; exact H|].
  intros Q l. destruct (C Q l) as [A1 A2].
  rewrite hook_list_reset_all in A1, A2. simpl in A1, A2.
  split; [exact A1|]. rewrite A2, calls_of_epochs. lia.
Qed.

(** The body of [run()] does not read the counters before it resets
    them. *)
Lemma run_body_reset (self_run : M unit) (st st' : State) :
  run_body self_run st = (Ok tt, st') ->
  run_body self_run (mkState (reset_all (trainer st)) (world st) (log st)) =
  (Ok tt, st').
Proof.
  rewrite !run_body_unfold. cbn [world trainer log].
  destruct (get_default_session_or_error (world st)); [|discriminate].
  destruct (ensure_variables_initialized (world st)) as [[[]|e] w1];
    [|discriminate].
  destruct (print_training_summary w1) as [[[]|e] w2]; [|discriminate].
  intros E. exact E.
Qed.

(** C1. A call of [run()] that returns has made exactly these calls:
    the request for the session, the check of the variables and the
    summary, then the reset of the four hook lists, then, for each epoch
    the epoch iterator of the loop yields, the before-epoch hooks, and
    for each payload the iterator of [_iter_steps()] yields the
    before-step hooks, [_run_step(session, payload)] and the after-step
    hooks, and after the steps the after-epoch hooks.  The session is
    the default session at entry; the epochs are all the iterator
    yields until it stops, from the world the summary has left, and
    the payloads of an epoch are all that one call of [_iter_steps()]
    yields.  The counters are reset before anything reads them: the run
    is the run of the trainer with its four counters at zero. *)
Theorem run_calls (depth : nat) (st st' : State) :
  run (S depth) st = (Ok tt, st') ->
  exists sess w1 w2 (epochs : list (Z * list payload)),
    get_default_session_or_error (world st) = Ok sess /\
    ensure_variables_initialized (world st) = (Ok tt, w1) /\
    print_training_summary w1 = (Ok tt, w2) /\
    yields (iter_epochs w2) (map fst epochs) /\
    Forall yielded_by_iter_steps (map snd epochs) /\
    log st' = log st ++ opening_calls ++ flat_map (epoch_calls sess) epochs /\
    _is_fitting (trainer st') = false /\
    run (S depth) (mkState (reset_all (trainer st)) (world st) (log st)) =
      (Ok tt, st').
Proof.
  intros E.
  destruct (_is_fitting (trainer st)) eqn:H.
  - rewrite run_while_fitting in E by exact H. discriminate.
  - rewrite (run_from_idle depth st H) in E.
    destruct (run_body (run depth) (entered st)) as [r s_end] eqn:Eb.
    simpl in E. inversion E; subst; clear E.
    destruct (run_body_follows (run depth) (entered st) s_end
                (refused_run depth) eq_refl Eb)
      as [sess [w1 [w2 [epochs [Hsess [Hw1 [Hw2 [Y [G [L _]]]]]]]]]].
    exists sess, w1, w2, epochs.
    repeat (split; [assumption|]). split; [reflexivity|].
    rewrite run_from_idle by exact H.
    change (entered (mkState (reset_all (trainer st)) (world st) (log st)))
      with (mkState (reset_all (trainer (entered st))) (world (entered st))
                    (log (entered st))).
    now rewrite (run_body_reset (run depth) (entered st) s_end Eb).
Qed.

(** X14. When neither the objects called nor [_run_step] change the
    hook lists, a call of [run()] that returns leaves the hooks as they
    were, and each trigger counter at the number of triggers of its
    list: the number of epochs for the two lists of the epochs, the
    number of steps for the two lists of the steps. *)
Theorem run_counters (depth : nat) (st st' : State) :
  quiet ->
  run (S depth) st = (Ok tt, st') ->
  exists sess (epochs : list (Z * list payload)),
    log st' = log st ++ opening_calls ++ flat_map (epoch_calls sess) epochs /\
    forall l,
      hooks (hook_list l (trainer st')) = hooks (hook_list l (trainer st)) /\
      counter (hook_list l (trainer st')) = triggers l epochs.
Proof.
  intros Q E.
  destruct (_is_fitting (trainer st)) eqn:H.
  - rewrite run_while_fitting in E by exact H. discriminate.
  - rewrite (run_from_idle depth st H) in E.
    destruct (run_body (run depth) (entered st)) as [r s_end] eqn:Eb.
    simpl in E. inversion E; subst; clear E.
    destruct (run_body_follows (run depth) (entered st) s_end
                (refused_run depth) eq_refl Eb)
      as [sess [w1 [w2 [epochs [_ [_ [_ [_ [_ [L [_ C]]]]]]]]]]].
    exists sess, epochs. split; [exact L|].
    intros l. simpl. rewrite hook_list_set_is_fitting.
    destruct (C Q l) as [A1 A2]. simpl in A1.
    rewrite hook_list_set_is_fitting in A1. now split.
Qed.

(** *** Removal of hooks *)

Definition HookPriority_eqb (a b : HookPriority) : bool :=
  match a, b with
  | EVALUATION, EVALUATION | ANNEALING, ANNEALING | LOGGING, LOGGING => true
  | _, _ => false
  end.

Definition other_priority (priority : HookPriority) (h : Hook) : bool :=
  negb (HookPriority_eqb (hook_priority h) priority).

(** Modelled from the spec: [HookList.remove_by_priority] removes all
    hooks with exactly that priority and returns the number removed. *)
Definition HookList_remove_by_priority (priority : HookPriority) (l : HookList)
  : Z * HookList :=
  let kept := filter (other_priority priority) (hooks l) in
  (len (hooks l) - len kept, mkHookList kept (counter l)).

(** [hook_list.remove_by_priority(priority)] on the list [l] of the
    trainer. *)
Definition remove_from (l : which) (priority : HookPriority) : M Z :=
  fun st =>
    let (n, kept) := HookList_remove_by_priority priority (hook_list l (trainer st)) in
    (Ok n, mkState (set_hook_list l kept (trainer st)) (world st) (log st)).

(** The loop of [remove_by_priority], [count] being the number removed
    so far. *)
Fixpoint remove_loop (priority : HookPriority) (ls : list which) (count : Z) : M Z :=
  match ls with
  | [] => ret count
  | l :: rest =>
    n <- remove_from l priority ;;
    remove_loop priority rest (count + n)
  end.

Definition remove_by_priority (priority : HookPriority) : M Z :=
  remove_loop priority all_hook_lists 0.

Definition remove_log_hooks : M Z := remove_by_priority LOGGING.

Definition remove_evaluation_hooks : M Z := remove_by_priority EVALUATION.

Definition remove_annealing_hooks : M Z := remove_by_priority ANNEALING.

(** The number of hooks of a list with the given priority. *)
Definition held (priority : HookPriority) (l : HookList) : Z :=
  len (filter (fun h => HookPriority_eqb (hook_priority h) priority) (hooks l)).

Lemma HookPriority_eqb_eq (a b : HookPriority) :
  HookPriority_eqb a b = true <-> a = b.
Proof. destruct a, b; simpl; split; congruence. Qed.

Lemma removed_count (priority : HookPriority) (hs : list Hook) :
  len hs - len (filter (other_priority priority) hs) =
  len (filter (fun h => HookPriority_eqb (hook_priority h) priority) hs).
Proof.
  assert (H : (List.length hs =
               List.length (filter (other_priority priority) hs) +
               List.length (filter (fun h => HookPriority_eqb (hook_priority h)
                                                              priority) hs))%nat).
  { unfold other_priority. induction hs as [|h r IH]; [reflexivity|].
    simpl. destruct (HookPriority_eqb (hook_priority h) priority); simpl; lia. }
  unfold len. lia.
Qed.

(** The trainer once the hooks of the given priority are gone. *)
Definition without (priority : HookPriority) (t : BaseTrainer) : BaseTrainer :=
  mkTrainer
    (snd (HookList_remove_by_priority priority (before_epochs t)))
    (snd (HookList_remove_by_priority priority (after_epochs t)))
    (snd (HookList_remove_by_priority priority (before_steps t)))
    (snd (HookList_remove_by_priority priority (after_steps t)))
    (_is_fitting t).

Lemma remove_by_priority_eq (priority : HookPriority) (st : State) :
  remove_by_priority priority st =
  (Ok (held priority (before_epochs (trainer st)) +
       held priority (before_steps (trainer st)) +
       held priority (after_steps (trainer st)) +
       held priority (after_epochs (trainer st))),
   mkState (without priority (trainer st)) (world st) (log st)).
Proof.
  unfold remove_by_priority, all_hook_lists. cbn [remove_loop].
  unfold bind, remove_from, HookList_remove_by_priority, ret. cbn.
  rewrite !removed_count. reflexivity.
Qed.

Lemma filter_other_idempotent (priority : HookPriority) (hs : list Hook) :
  filter (other_priority priority) (filter (other_priority priority) hs) =
  filter (other_priority priority) hs.
Proof.
  induction hs as [|h r IH]; [reflexivity|]. simpl.
  destruct (other_priority priority h) eqn:E; simpl; rewrite ?E, IH; reflexivity.
Qed.

Lemma held_without (priority : HookPriority) (hs : list Hook) (c : Z) :
  held priority (mkHookList (filter (other_priority priority) hs) c) = 0.
Proof.
  unfold held, len, other_priority. simpl.
  induction hs as [|h r IH]; [reflexivity|]. simpl.
  destruct (HookPriority_eqb (hook_priority h) priority) eqn:E; simpl;
    rewrite ?E; exact IH.
Qed.

(** X10. [remove_by_priority] returns the number of hooks of the
    priority in the four lists together, leaves in each list the other
    hooks in their order, keeps the counters, the running flag and
    everything else, and a second call removes nothing and
    returns 0. *)
Theorem remove_by_priority_removes (priority : HookPriority) (st : State) :
  let st' := snd (remove_by_priority priority st) in
  fst (remove_by_priority priority st) =
    Ok (held priority (before_epochs (trainer st)) +
        held priority (before_steps (trainer st)) +
        held priority (after_steps (trainer st)) +
        held priority (after_epochs (trainer st))) /\
  (forall l,
     hooks (hook_list l (trainer st')) =
       filter (other_priority priority) (hooks (hook_list l (trainer st))) /\
     counter (hook_list l (trainer st')) = counter (hook_list l (trainer st)) /\
     forall h, In h (hooks (hook_list l (trainer st'))) ->
               hook_priority h <> priority) /\
  _is_fitting (trainer st') = _is_fitting (trainer st) /\
  world st' = world st /\ log st' = log st /\
  remove_by_priority priority st' = (Ok 0, st').
Proof.
  cbv zeta. rewrite remove_by_priority_eq. cbn [fst snd].
  split; [reflexivity|]. split; [|split; [reflexivity|]].
  - intros l. split; [now destruct l|]. split; [now destruct l|].
    intros h Hin Hp.
    assert (Hf : In h (filter (other_priority priority)
                         (hooks (hook_list l (trainer st)))))
      by (destruct l; exact Hin).
    apply filter_In in Hf. destruct Hf as [_ Hf].
    unfold other_priority in Hf. apply HookPriority_eqb_eq in Hp.
    rewrite Hp in Hf. discriminate.
  - split; [reflexivity|]. split; [reflexivity|].
    rewrite remove_by_priority_eq. cbn [trainer world log].
    unfold without, HookList_remove_by_priority. cbn.
    rewrite !held_without, !filter_other_idempotent. reflexivity.
Qed.

Lemma filter_other_insert (priority : HookPriority) (h : Hook) (hs : list Hook) :
  hook_priority h = priority ->
  filter (other_priority priority) (insert_hook h hs) =
  filter (other_priority priority) hs.
Proof.
  intros Hp.
  assert (Hh : other_priority priority h = false).
  { unfold other_priority. rewrite Hp.
    now rewrite (proj2 (HookPriority_eqb_eq priority priority) eq_refl). }
  induction hs as [|x r IH]; simpl; [now rewrite Hh|].
  destruct (_ <? _); simpl; rewrite ?Hh, ?IH; reflexivity.
Qed.

Lemma held_insert (priority : HookPriority) (h : Hook) (hs : list Hook) (c : Z) :
  hook_priority h = priority ->
  held priority (mkHookList (insert_hook h hs) c) =
  held priority (mkHookList hs c) + 1.
Proof.
  intros Hp. unfold held, len. simpl.
  assert (Hh : HookPriority_eqb (hook_priority h) priority = true)
    by (now apply HookPriority_eqb_eq).
  assert (H : List.length (filter (fun h => HookPriority_eqb (hook_priority h)
                                                             priority)
                             (insert_hook h hs)) =
              S (List.length (filter (fun h => HookPriority_eqb (hook_priority h)
                                                                priority) hs))).
  { induction hs as [|x r IH]; simpl; [rewrite Hh; reflexivity|].
    destruct (_ <? _); simpl.
    - rewrite Hh. reflexivity.
    - destruct (HookPriority_eqb (hook_priority x) priority); simpl; lia. }
  rewrite H. lia.
Qed.

(** The outcome of a removal that has found one hook more. *)
Definition one_more (r : outcome Z * State) : outcome Z * State :=
  (match fst r with
   | Ok n => Ok (n + 1)
   | Raise e => Raise e
   end, snd r).

Lemma remove_after_registered (l : which) (callback : object) (freq : positive)
  (priority : HookPriority) (st : State) :
  remove_by_priority priority (registered l callback freq priority st) =
  one_more (remove_by_priority priority st).
Proof.
  rewrite !remove_by_priority_eq. unfold one_more, registered. cbn [fst snd].
  cbn [trainer world log]. f_equal.
  - f_equal. unfold HookList_add_hook.
    destruct l; cbn [set_hook_list hook_list before_epochs before_steps
                       after_steps after_epochs];
      rewrite held_insert by reflexivity;
      destruct (before_epochs (trainer st)), (before_steps (trainer st)),
        (after_steps (trainer st)), (after_epochs (trainer st)); cbn; lia.
  - f_equal. unfold without, HookList_remove_by_priority, HookList_add_hook.
    destruct l; cbn; rewrite filter_other_insert by reflexivity; reflexivity.
Qed.

(** X11. After a successful [log_after_*], [evaluate_after_*] or
    [anneal_after_*], the matching [remove_*_hooks] leaves the trainer
    as it would have left it without the registration, and returns one
    more. *)
Theorem register_then_remove (obj : object) (freq : positive) (st st1 : State) :
  (log_after_epochs freq st = (Ok tt, st1) \/
   log_after_steps freq st = (Ok tt, st1) ->
   remove_log_hooks st1 = one_more (remove_log_hooks st)) /\
  (evaluate_after_epochs obj freq st = (Ok tt, st1) \/
   evaluate_after_steps obj freq st = (Ok tt, st1) ->
   remove_evaluation_hooks st1 = one_more (remove_evaluation_hooks st)) /\
  (anneal_after_epochs obj freq st = (Ok tt, st1) \/
   anneal_after_steps obj freq st = (Ok tt, st1) ->
   remove_annealing_hooks st1 = one_more (remove_annealing_hooks st)).
Proof.
  assert (H : forall l name p,
             (callback <- (if callable obj then ret obj else attribute obj name) ;;
              add_hook l callback freq p) st = (Ok tt, st1) ->
             remove_by_priority p st1 = one_more (remove_by_priority p st)).
  { intros l name p. rewrite choose_and_add.
    destruct (callable obj);
      [intros E; injection E as <-; exact (remove_after_registered l obj freq p st)|].
    destruct (getattr obj name) as [attr|]; intros E; [|discriminate].
    injection E as <-. exact (remove_after_registered l attr freq p st). }
  split; [|split].
  - intros [E|E].
    + change (log_after_epochs freq st)
        with (Ok tt, registered AfterEpochs print_logs freq LOGGING st) in E.
      injection E as <-.
      exact (remove_after_registered AfterEpochs print_logs freq LOGGING st).
    + change (log_after_steps freq st)
        with (Ok tt, registered AfterSteps print_logs freq LOGGING st) in E.
      injection E as <-.
      exact (remove_after_registered AfterSteps print_logs freq LOGGING st).
  - intros [E|E]; exact (H _ _ _ E).
  - intros [E|E]; exact (H _ _ _ E).
Qed.

(** *** What a registration leaves alone *)

Lemma length_insert_hook (h : Hook) (hs : list Hook) :
  len (insert_hook h hs) = len hs + 1.
Proof.
  assert (H : List.length (insert_hook h hs) = S (List.length hs)).
  { induction hs as [|x r IH]; simpl; [reflexivity|].
    destruct (_ <? _); simpl; lia. }
  unfold len. rewrite H. lia.
Qed.

(** Only the after-lists have changed between [st] and [st'], and by
    [added] hooks in all. *)
Definition after_lists_only (st st' : State) (added : Z) : Prop :=
  world st' = world st /\ log st' = log st /\
  _is_fitting (trainer st') = _is_fitting (trainer st) /\
  before_epochs (trainer st') = before_epochs (trainer st) /\
  before_steps (trainer st') = before_steps (trainer st) /\
  counter (after_epochs (trainer st')) = counter (after_epochs (trainer st)) /\
  counter (after_steps (trainer st')) = counter (after_steps (trainer st)) /\
  len (hooks (after_epochs (trainer st'))) + len (hooks (after_steps (trainer st'))) =
    len (hooks (after_epochs (trainer st))) + len (hooks (after_steps (trainer st))) +
    added.

Definition leaves_alone (m : M unit) (st : State) : Prop :=
  after_lists_only st (snd (m st))
    (match fst (m st) with Ok _ => 1 | Raise _ => 0 end).

Lemma after_lists_only_refl (st : State) : after_lists_only st st 0.
Proof. unfold after_lists_only. repeat split; lia. Qed.

Lemma registered_after_steps (callback : object) (freq : positive)
  (priority : HookPriority) (st : State) :
  after_lists_only st (registered AfterSteps callback freq priority st) 1.
Proof.
  unfold after_lists_only, registered; cbn.
  repeat split. rewrite length_insert_hook. lia.
Qed.

Lemma registered_after_epochs (callback : object) (freq : positive)
  (priority : HookPriority) (st : State) :
  after_lists_only st (registered AfterEpochs callback freq priority st) 1.
Proof.
  unfold after_lists_only, registered; cbn.
  repeat split. rewrite length_insert_hook. lia.
Qed.

Lemma choose_and_add_leaves_alone (l : which) (obj : object) (name : string)
  (freq : positive) (priority : HookPriority) (st : State) :
  l = AfterSteps \/ l = AfterEpochs ->
  leaves_alone
    (callback <- (if callable obj then ret obj else attribute obj name) ;;
     add_hook l callback freq priority) st.
Proof.
  intros Hl. unfold leaves_alone. rewrite choose_and_add.
  destruct (callable obj); cbn [fst snd].
  - destruct Hl as [-> | ->];
      [apply registered_after_steps | apply registered_after_epochs].
  - destruct (getattr obj name); cbn [fst snd].
    + destruct Hl as [-> | ->];
        [apply registered_after_steps | apply registered_after_epochs].
    + apply after_lists_only_refl.
Qed.

Lemma cadence_leaves_alone (by_epochs by_steps : positive -> M unit)
  (epochs steps : option positive) (st : State) :
  (forall f, leaves_alone (by_epochs f) st) ->
  (forall f, leaves_alone (by_steps f) st) ->
  leaves_alone
    (check_epochs_and_steps_arg epochs steps ;;
     match epochs with
     | Some epochs => by_epochs epochs
     | None => steps <- as_freq steps ;; by_steps steps
     end) st.
Proof.
  intros He Hs. unfold leaves_alone.
  destruct (cadence_cases by_epochs by_steps epochs steps st)
    as [[H E]|[H [[f [-> [-> E]]]|[f [-> [-> E]]]]]];
    cbv zeta in E; rewrite E.
  - apply after_lists_only_refl.
  - apply He.
  - apply Hs.
Qed.

(** X12. [log_after], [evaluate_after] and [anneal_after] touch only
    the hooks of [after_epochs] and [after_steps]: the two [before]
    lists, all four counters and the running flag stay as they are,
    nothing is called, and the two [after] lists hold one hook more
    between them when the method returns and none more when it
    raises. *)
Theorem registration_leaves_alone (obj : object) (epochs steps : option positive)
  (st : State) :
  leaves_alone (log_after epochs steps) st /\
  leaves_alone (evaluate_after obj epochs steps) st /\
  leaves_alone (anneal_after obj epochs steps) st.
Proof.
  split; [|split]; apply cadence_leaves_alone; intros f.
  - apply registered_after_epochs.
  - apply registered_after_steps.
  - apply choose_and_add_leaves_alone; auto.
  - apply choose_and_add_leaves_alone; auto.
  - apply choose_and_add_leaves_alone; auto.
  - apply choose_and_add_leaves_alone; auto.
Qed.

(** *** Runs that fail, and nested runs *)

Lemma idle_again (t : BaseTrainer) :
  _is_fitting t = false -> set_is_fitting false (set_is_fitting true t) = t.
Proof. destruct t; simpl; intros ->; reflexivity. Qed.

(** X13. When there is no default session, or the check of the
    variables raises, [run()] started on an idle trainer raises that
    error before any hook list is reset and before the loop is
    touched, and leaves the trainer, idle, as it was. *)
Theorem run_precondition_fails (depth : nat) (st : State) (e : exception) :
  _is_fitting (trainer st) = false ->
  (get_default_session_or_error (world st) = Raise e ->
   run (S depth) st =
     (Raise e, mkState (trainer st) (world st) (log st ++ [EvGetSession]))) /\
  (forall sess w,
     get_default_session_or_error (world st) = Ok sess ->
     ensure_variables_initialized (world st) = (Raise e, w) ->
     run (S depth) st =
       (Raise e,
        mkState (trainer st) w (log st ++ [EvGetSession; EvEnsureInitialized]))).
Proof.
  intros H. split.
  - intros Hs. rewrite (run_from_idle depth st H).
    unfold run_body, bind, emit, inspect, entered. cbn [trainer world log].
    rewrite Hs. cbn [fst snd trainer world log].
    now rewrite (idle_again _ H).
  - intros sess w Hs Hi. rewrite (run_from_idle depth st H).
    unfold run_body, bind, emit, inspect, extern, entered, set_world.
    cbn [trainer world log]. rewrite Hs. cbn [trainer world log]. rewrite Hi.
    cbn [fst snd trainer world log].
    now rewrite (idle_again _ H), <- app_assoc.
Qed.

(** A call of [run()] made during a run is refused at once, so the
    interpreter never needs more than two levels. *)
Lemma run_depth (depth : nat) (st : State) : run (S (S depth)) st = run 2 st.
Proof.
  destruct (_is_fitting (trainer st)) eqn:H.
  - now rewrite !run_while_fitting.
  - rewrite !(run_while_idle _ st H).
    unfold bind, update_trainer, try_finally. fold (entered st).
    assert (Hr : refused (run (S depth)) (run 1))
      by (intros s Hs; now rewrite !run_while_fitting).
    destruct (agree_run_body _ _ Hr (entered st)) as [E _]; [reflexivity|].
    now rewrite E.
Qed.

(** The calls of [run()] up to the loop over the epochs. *)
Lemma run_body_opening (self_run : M unit) (st st' : State) :
  fitting st ->
  run_body self_run st = (Ok tt, st') ->
  exists sess st0,
    log st0 = log st ++ opening_calls /\
    (forall l, counter (hook_list l (trainer st0)) = 0) /\
    fitting st0 /\
    epochs_loop self_run sess st0 = (Ok tt, st').
Proof.
  intros H E. rewrite run_body_unfold in E.
  destruct (get_default_session_or_error (world st)) as [sess|e]; [|discriminate].
  destruct (ensure_variables_initialized (world st)) as [[[]|e] w1];
    [|discriminate].
  destruct (print_training_summary w1) as [[[]|e] w2]; [|discriminate].
  exists sess, (mkState (reset_all (trainer st)) w2 (log st ++ opening_calls)).
  split; [reflexivity|]. split; [|split; [exact H | exact E]].
  intros l. cbn [trainer]. now rewrite hook_list_reset_all.
Qed.

(** A loop whose body never returns has taken no item when it
    returns. *)
Lemma for_gen_no_item {T : Type} (yielded : T -> event) (body : T -> M unit) :
  (forall x st st', body x st <> (Ok tt, st')) ->
  forall g st st',
    for_gen g yielded body st = (Ok tt, st') ->
    log st' = log st /\ trainer st' = trainer st.
Proof.
  intros Hb g st st' E. destruct g as [w|e w|item w rest].
  - inversion E. split; reflexivity.
  - discriminate.
  - cbn [for_gen] in E. unfold bind at 1 in E. cbn [emit] in E.
    destruct (body item _) as [[[]|e] st1] eqn:Eb; [|discriminate].
    now apply Hb in Eb.
Qed.

(** X15. A trainer that does not override [_iter_steps] can return
    from [run()] only if the loop yields no epoch: the calls are then
    the opening ones alone, and every counter is 0. *)
Theorem run_without_iter_steps (depth : nat) (st st' : State) :
  (forall w, fst (_iter_steps w) = Raise NotImplementedError) ->
  run (S depth) st = (Ok tt, st') ->
  log st' = log st ++ opening_calls /\
  forall l, counter (hook_list l (trainer st')) = 0.
Proof.
  intros Hbase E.
  destruct (_is_fitting (trainer st)) eqn:H.
  - rewrite run_while_fitting in E by exact H. discriminate.
  - rewrite (run_from_idle depth st H) in E.
    destruct (run_body (run depth) (entered st)) as [r s_end] eqn:Eb.
    simpl in E. inversion E; subst; clear E.
    destruct (run_body_opening (run depth) (entered st) s_end eq_refl Eb)
      as [sess [st0 [L [C [F Eloop]]]]].
    unfold epochs_loop in Eloop. unfold for_each in Eloop at 1.
    apply for_gen_no_item in Eloop.
    + destruct Eloop as [L' T']. simpl. rewrite L', L. split; [reflexivity|].
      intros l. rewrite hook_list_set_is_fitting, T'. apply C.
    + intros x s s' Ebody.
      next_call Ebody v1 s1 E1. next_call Ebody v2 s2 E2.
      next_call Ebody steps s3 E3.
      unfold extern in E3. specialize (Hbase (world s2)).
      destruct (_iter_steps (world s2)) as [o w]. simpl in Hbase. subst o.
      discriminate.
Qed.

(** *** The order of the calls of any run *)

(** Where a run is among its calls. *)
Inductive phase : Type :=
| Start
| Session
| Variables
| Resetting (remaining : list which)
| BetweenEpochs
| EpochYielded
| EpochBegun
| BetweenSteps
| StepYielded (p : payload)
| StepBegun (p : payload)
| StepRun.

(** The call that may come next in each phase; [sess] is the default
    session at entry, if there is one. *)
Inductive transition (sess : option session) : phase -> event -> phase -> Prop :=
| t_session : transition sess Start EvGetSession Session
| t_variables : transition sess Session EvEnsureInitialized Variables
| t_summary : transition sess Variables EvPrintSummary (Resetting all_hook_lists)
| t_reset l rest : transition sess (Resetting (l :: rest)) (EvReset l) (Resetting rest)
| t_loop : transition sess (Resetting []) EvIterEpochs BetweenEpochs
| t_epoch e : transition sess BetweenEpochs (EvEpoch e) EpochYielded
| t_before_epoch :
    transition sess EpochYielded (EvCallHooks BeforeEpochs) EpochBegun
| t_iter_steps : transition sess EpochBegun EvIterSteps BetweenSteps
| t_payload p : transition sess BetweenSteps (EvPayload p) (StepYielded p)
| t_before_step p :
    transition sess (StepYielded p) (EvCallHooks BeforeSteps) (StepBegun p)
| t_run_step s p :
    sess = Some s -> transition sess (StepBegun p) (EvRunStep s p) StepRun
| t_after_step : transition sess StepRun (EvCallHooks AfterSteps) BetweenSteps
| t_after_epoch :
    transition sess BetweenSteps (EvCallHooks AfterEpochs) BetweenEpochs.

Inductive path (sess : option session) : phase -> list event -> phase -> Prop :=
| path_nil a : path sess a [] a
| path_cons a e b t c :
    transition sess a e b -> path sess b t c -> path sess a (e :: t) c.

Lemma path_app (sess : option session) (a b c : phase) (t1 t2 : list event) :
  path sess a t1 b -> path sess b t2 c -> path sess a (t1 ++ t2) c.
Proof.
  induction 1 as [a|a e b t1 b' Ht H IH]; simpl; intros H2; [exact H2|].
  econstructor; [exact Ht | now apply IH].
Qed.

Lemma path_one (sess : option session) (a b : phase) (e : event) :
  transition sess a e b -> path sess a [e] b.
Proof. intros H. econstructor; [exact H | constructor]. Qed.

(** [st'] comes after [st] by the calls [t], with the running flag as
    it was. *)
Definition keeps (st st' : State) (t : list event) : Prop :=
  log st' = log st ++ t /\
  _is_fitting (trainer st') = _is_fitting (trainer st).

Lemma keeps_trans (st1 st2 st3 : State) (t1 t2 : list event) :
  keeps st1 st2 t1 -> keeps st2 st3 t2 -> keeps st1 st3 (t1 ++ t2).
Proof.
  intros [L1 F1] [L2 F2]. unfold keeps.
  rewrite L2, L1, app_assoc. split; [reflexivity | congruence].
Qed.

Lemma follows_keeps (st st' : State) (t : list event) :
  follows st st' t -> keeps st st' t.
Proof. intros [L [F _]]. now split. Qed.

Lemma keeps_fitting (st st' : State) (t : list event) :
  keeps st st' t -> fitting st -> fitting st'.
Proof. intros [_ F] H. unfold fitting in *. congruence. Qed.

(** The computation [m] takes a run from the phase [a] to the phase [b]
    when it returns, and stops it on the way when it raises. *)
Definition moves (sess : option session) {T : Type} (m : M T) (a b : phase) : Prop :=
  forall st, fitting st ->
    exists t,
      keeps st (snd (m st)) t /\
      match fst (m st) with
      | Ok _ => path sess a t b
      | Raise _ => exists c, path sess a t c
      end.

Lemma moves_ret (sess : option session) {T : Type} (v : T) (a : phase) :
  moves sess (ret v) a a.
Proof.
  intros st H. exists []. split; [apply follows_keeps, follows_refl | constructor].
Qed.

Lemma moves_emit (sess : option session) (e : event) (a b : phase) :
  transition sess a e b -> moves sess (emit e) a b.
Proof.
  intros Ht st H. exists [e]. split; [|now apply path_one].
  unfold keeps; simpl. split; reflexivity.
Qed.

Lemma moves_perform (sess : option session) (self_run : M unit)
  (f : World -> action) (a : phase) :
  refused self_run self_run ->
  moves sess (perform self_run f) a a.
Proof.
  intros Hs st H. exists []. unfold perform.
  destruct (exec_refused self_run self_run Hs (f (world st)) st H) as [_ [F L]].
  split.
  - unfold keeps. rewrite L, app_nil_r. unfold fitting in *.
    split; [reflexivity | congruence].
  - destruct (fst (exec self_run (f (world st)) st));
      [constructor | eexists; constructor].
Qed.

Lemma moves_extern (sess : option session) {T : Type}
  (f : World -> outcome T * World) (a : phase) :
  moves sess (extern f) a a.
Proof.
  intros st H. exists []. split; [apply follows_keeps, extern_follows|].
  destruct (fst (extern f st)); [constructor | eexists; constructor].
Qed.

Lemma moves_bind (sess : option session) {T U : Type} (m : M T) (f : T -> M U)
  (a b c : phase) :
  moves sess m a b -> (forall v, moves sess (f v) b c) ->
  moves sess (bind m f) a c.
Proof.
  intros Hm Hf st H. unfold bind.
  destruct (Hm st H) as [t1 [K1 P1]].
  destruct (m st) as [[v|e] st1]; simpl in *.
  - destruct (Hf v st1 (keeps_fitting _ _ _ K1 H)) as [t2 [K2 P2]].
    exists (t1 ++ t2). split; [exact (keeps_trans _ _ _ _ _ K1 K2)|].
    destruct (fst (f v st1)).
    + exact (path_app _ _ _ _ _ _ P1 P2).
    + destruct P2 as [c' P2]. exists c'. exact (path_app _ _ _ _ _ _ P1 P2).
  - exists t1. split; assumption.
Qed.

Lemma moves_call_hooks (sess : option session) (self_run : M unit) (l : which)
  (a b : phase) :
  refused self_run self_run ->
  transition sess a (EvCallHooks l) b ->
  moves sess (call_hooks self_run l) a b.
Proof.
  intros Hs Ht st H. exists [EvCallHooks l].
  split; [apply follows_keeps, call_hooks_follows; assumption|].
  destruct (fst (call_hooks self_run l st));
    [|exists b]; now apply path_one.
Qed.

Lemma moves_reset (sess : option session) (l : which) (a b : phase) :
  transition sess a (EvReset l) b -> moves sess (reset l) a b.
Proof.
  intros Ht st H. exists [EvReset l]. split; [|now apply path_one].
  unfold keeps, reset, bind, emit, on_hook_list, update_trainer; simpl.
  split; [reflexivity | apply is_fitting_set_hook_list].
Qed.

Lemma moves_for_each (sess : option session) {T : Type} (it : World -> gen T)
  (yielded : T -> event) (body : T -> M unit) (a : phase) (a1 : T -> phase) :
  (forall x, transition sess a (yielded x) (a1 x)) ->
  (forall x, moves sess (body x) (a1 x) a) ->
  moves sess (for_each it yielded body) a a.
Proof.
  intros Hy Hb st H. unfold for_each.
  generalize (it (world st)) as g. intros g. revert st H.
  induction g as [w|e w|item w rest IH]; intros st H.
  - exists []. split; [apply follows_keeps, follows_set_world | constructor].
  - exists []. split; [apply follows_keeps, follows_set_world|].
    eexists; constructor.
  - cbn [for_gen].
    assert (Hstep : moves sess (emit (yielded item) ;; body item) a a)
      by (eapply moves_bind; [apply moves_emit, Hy | intros _; apply Hb]).
    destruct (Hstep (set_world w st) (fitting_set_world w st H)) as [t1 [K1 P1]].
    pose proof (keeps_trans _ _ _ _ _
                  (follows_keeps _ _ _ (follows_set_world w st)) K1) as K1'.
    destruct ((emit (yielded item) ;; body item) (set_world w st))
      as [[v|e] st1]; simpl in *.
    + destruct (IH (world st1) st1 (keeps_fitting _ _ _ K1' H)) as [t2 [K2 P2]].
      exists (t1 ++ t2). split; [exact (keeps_trans _ _ _ _ _ K1' K2)|].
      destruct (fst (for_gen (rest (world st1)) yielded body st1)).
      * exact (path_app _ _ _ _ _ _ P1 P2).
      * destruct P2 as [c P2]. exists c. exact (path_app _ _ _ _ _ _ P1 P2).
    + exists t1. split; assumption.
Qed.

(** The body of [run()] from the point where it has the session. *)
Definition run_with_session (self_run : M unit) (sess : session) : M unit :=
  emit EvEnsureInitialized ;;
  extern ensure_variables_initialized ;;
  emit EvPrintSummary ;;
  extern print_training_summary ;;
  for_list all_hook_lists reset ;;
  emit EvIterEpochs ;;
  for_each iter_epochs EvEpoch (fun epoch =>
    call_hooks self_run BeforeEpochs ;;
    emit EvIterSteps ;;
    steps <- extern _iter_steps ;;
    for_each steps EvPayload (fun payload =>
      call_hooks self_run BeforeSteps ;;
      emit (EvRunStep sess payload) ;;
      perform self_run (_run_step sess payload) ;;
      call_hooks self_run AfterSteps) ;;
    call_hooks self_run AfterEpochs).

Lemma run_body_session (self_run : M unit) (st : State) :
  run_body self_run st =
  match get_default_session_or_error (world st) with
  | Ok sess =>
    run_with_session self_run sess
      (mkState (trainer st) (world st) (log st ++ [EvGetSession]))
  | Raise e =>
    (Raise e, mkState (trainer st) (world st) (log st ++ [EvGetSession]))
  end.
Proof.
  unfold run_body. unfold bind at 1. cbn [emit]. unfold bind at 1.
  unfold inspect. cbn [world].
  destruct (get_default_session_or_error (world st)); reflexivity.
Qed.

Lemma moves_with_session (self_run : M unit) (sess : session) :
  refused self_run self_run ->
  moves (Some sess) (run_with_session self_run sess) Session BetweenEpochs.
Proof.
  intros Hs. unfold run_with_session.
  eapply moves_bind; [apply moves_emit; constructor | intros _].
  eapply moves_bind; [apply moves_extern | intros _].
  eapply moves_bind; [apply moves_emit; constructor | intros _].
  eapply moves_bind; [apply moves_extern | intros _].
  eapply moves_bind.
  { unfold all_hook_lists. cbn [for_list].
    repeat (eapply moves_bind; [apply moves_reset; constructor | intros _]).
    apply moves_ret. }
  intros _.
  eapply moves_bind; [apply moves_emit; constructor | intros _].
  eapply (moves_for_each _ _ _ _ _ (fun _ => EpochYielded));
    [intros x; constructor | intros epoch].
  eapply moves_bind; [apply moves_call_hooks; [exact Hs | constructor] | intros _].
  eapply moves_bind; [apply moves_emit; constructor | intros _].
  eapply moves_bind; [apply moves_extern | intros steps].
  eapply moves_bind;
    [|intros _; apply moves_call_hooks; [exact Hs | constructor]].
  eapply (moves_for_each _ _ _ _ _ StepYielded);
    [intros x; constructor | intros p].
  eapply moves_bind; [apply moves_call_hooks; [exact Hs | constructor] | intros _].
  eapply moves_bind;
    [apply moves_emit; constructor; reflexivity | intros _].
  eapply moves_bind; [apply moves_perform; exact Hs | intros _].
  apply moves_call_hooks; [exact Hs | constructor].
Qed.

(** The default session when [run()] is entered. *)
Definition default_session (st : State) : option session :=
  match get_default_session_or_error (world st) with
  | Ok sess => Some sess
  | Raise _ => None
  end.

(** X16. The calls of any [run()] started on an idle trainer, whether
    it returns or raises at some point, come in the order of the
    phases: session, variables, summary, the four resets, then per
    epoch the before-epoch hooks, the step iterator, per payload the
    before-step hooks, the step with the default session of the entry
    and the after-step hooks, and then the after-epoch hooks.  A run
    that returns ends between two epochs. *)
Theorem run_protocol (depth : nat) (st : State) :
  _is_fitting (trainer st) = false ->
  exists t c,
    log (snd (run (S depth) st)) = log st ++ t /\
    path (default_session st) Start t c /\
    (fst (run (S depth) st) = Ok tt -> c = BetweenEpochs).
Proof.
  intros H. rewrite (run_from_idle depth st H). cbn [fst snd trainer log].
  assert (Hbody : exists t c,
            keeps (entered st) (snd (run_body (run depth) (entered st))) t /\
            path (default_session st) Start t c /\
            (fst (run_body (run depth) (entered st)) = Ok tt ->
             c = BetweenEpochs)).
  { rewrite run_body_session. unfold default_session.
    change (world (entered st)) with (world st).
    destruct (get_default_session_or_error (world st)) as [sess|e].
    - set (s := mkState (trainer (entered st)) (world st)
                        (log (entered st) ++ [EvGetSession])).
      destruct (moves_with_session (run depth) sess (refused_run depth) s)
        as [t [K P]]; [reflexivity|].
      assert (K' : keeps (entered st)
                     (snd (run_with_session (run depth) sess s))
                     ([EvGetSession] ++ t)).
      { eapply keeps_trans; [|exact K]. unfold keeps; simpl.
        split; reflexivity. }
      destruct (fst (run_with_session (run depth) sess s)) as [[]|e].
      + exists ([EvGetSession] ++ t), BetweenEpochs.
        split; [exact K'|]. split; [|reflexivity].
        econstructor; [constructor | exact P].
      + destruct P as [c P]. exists ([EvGetSession] ++ t), c.
        split; [exact K'|]. split; [|discriminate].
        econstructor; [constructor | exact P].
    - exists [EvGetSession], Session. cbn [fst snd].
      split; [unfold keeps; simpl; split; reflexivity|].
      split; [apply path_one; constructor | discriminate]. }
  destruct Hbody as [t [c [[L _] [P Hc]]]].
  exists t, c. split; [exact L|]. split; [exact P | exact Hc].
Qed.

End WithCollaborators.

Arguments Finish {World object} r w.
Arguments Reenter {World object} w k.
Arguments Touch {World object} f k.
Arguments yields {World T} _ _.
Arguments tame {World object} _.
Arguments reset_all {object} t.
Arguments with_hook_lists {object} t' t.
Arguments Stop {World T} w.
Arguments Raises {World T} e w.
Arguments Yield {World T} item w rest.
Arguments mkHook {object} hook_callback hook_freq hook_priority.
Arguments mkHookList {object} hooks counter.
Arguments hooks {object} h.
Arguments counter {object} h.
Arguments mkTrainer {object} _ _ _ _ _.
Arguments before_epochs {object} b.
Arguments after_epochs {object} b.
Arguments before_steps {object} b.
Arguments after_steps {object} b.
Arguments _is_fitting {object} b.
Arguments hook_list {object} l t.
Arguments mkState {World object session payload} trainer world log.
Arguments trainer {World object session payload} s.
Arguments world {World object session payload} s.
Arguments log {World object session payload} s.
Arguments EvGetSession {session payload}.
Arguments EvEnsureInitialized {session payload}.
Arguments EvPrintSummary {session payload}.
Arguments EvReset {session payload} l.
Arguments EvIterEpochs {session payload}.
Arguments EvEpoch {session payload} epoch.
Arguments EvCallHooks {session payload} l.
Arguments EvIterSteps {session payload}.
Arguments EvPayload {session payload} p.
Arguments EvRunStep {session payload} s p.

(** *** A trainer at work

    Three epochs of two steps.  The world is the journal the called
    objects write to; objects are numbers. *)

Module Demo.

Definition World : Type := list nat.

(** An iterator over a tuple. *)
Fixpoint iter_list {T : Type} (xs : list T) (w : World) : gen World T :=
  match xs with
  | [] => Stop w
  | x :: rest => Yield x w (iter_list rest)
  end.

(** Object 1 is [trainer.run]; object 2 raises; object 3 calls [run()]
    and notes in the journal whether it raised; any other object [n]
    writes [n]. *)
Definition call (o : nat) (w : World) : action World nat :=
  match o with
  | 1%nat => Reenter w (fun r w' => Finish r w')
  | 2%nat => Finish (Raise (OtherError 2)) w
  | 3%nat =>
    Reenter w (fun r w' =>
      Finish (Ok tt) (w' ++ [match r with Raise _ => 31%nat | Ok _ => 30%nat end]))
  | n => Finish (Ok tt) (w ++ [n])
  end.

(** Objects 0 to 8 are callable; object 9 is an evaluator with a [run]
    method, object 10; object 11 is a dynamic value with an [anneal]
    method, object 12. *)
Definition callable (o : nat) : bool := Nat.leb o 8.

Definition getattr (o : nat) (name : string) : option nat :=
  match o with
  | 9%nat => if String.eqb name "run" then Some 10%nat else None
  | 11%nat => if String.eqb name "anneal" then Some 12%nat else None
  | _ => None
  end.

Definition priority_value (p : HookPriority) : Z :=
  match p with
  | EVALUATION => 500
  | ANNEALING => 1500
  | LOGGING => 10000
  end.

Definition print_logs : nat := 4%nat.

Definition get_default_session_or_error (w : World) : outcome nat := Ok 7%nat.

Definition succeed (w : World) : outcome unit * World := (Ok tt, w).

Definition iter_epochs : World -> gen World Z := iter_list [0; 1; 2].

Definition _iter_steps (w : World) : outcome (World -> gen World nat) * World :=
  (Ok (iter_list [10%nat; 11%nat]), w).

Definition _run_step (s p : nat) (w : World) : action World nat := Finish (Ok tt) w.

Definition run : nat -> M World nat nat nat unit :=
  Trainer.run World nat nat nat call get_default_session_or_error succeed
    succeed iter_epochs _iter_steps _run_step.

(** A trainer with one hook on each of two lists. *)
Definition with_hooks (before_epoch after_step : Hook nat) : State World nat nat nat :=
  mkState
    (mkTrainer (mkHookList [before_epoch] 5) (mkHookList [] 0)
               (mkHookList [] 0) (mkHookList [after_step] 9) false)
    [] [].

(** A hook before every epoch that writes 100, a hook after every
    second step that writes 200. *)
Definition start : State World nat nat nat :=
  with_hooks (mkHook 100%nat 1 LOGGING) (mkHook 200%nat 2 LOGGING).

Definition finish : State World nat nat nat := Eval vm_compute in snd (run 2 start).

Example run_returns : run 2 start = (Ok tt, finish).
Proof. vm_compute. reflexivity. Qed.

(** The step hook has fired once per epoch, three times in all, and the
    counters have been reset before counting. *)
Example journal_of_run :
  world finish = [100; 200; 100; 200; 100; 200]%nat /\
  counter (before_epochs (trainer finish)) = 3 /\
  counter (after_steps (trainer finish)) = 6.
Proof. split; [reflexivity | split; reflexivity]. Qed.

(** The calls of the run: the opening calls, then three epochs of the
    two payloads 10 and 11. *)
Example calls_of_run :
  log finish =
    opening_calls nat nat ++
    flat_map (epoch_calls nat nat 7%nat)
      [(0, [10; 11]%nat); (1, [10; 11]%nat); (2, [10; 11]%nat)].
Proof. reflexivity. Qed.

(** [trainer.run] as a hook before the epochs: the call from within the
    outer run raises the re-entrancy error, which ends the outer run,
    and the trainer is not running afterwards. *)
Definition reentrant_start : State World nat nat nat :=
  with_hooks (mkHook 1%nat 1 LOGGING) (mkHook 200%nat 2 LOGGING).

Example nested_run_raises :
  fst (run 2 reentrant_start) = Raise not_reentrant /\
  _is_fitting (trainer (snd (run 2 reentrant_start))) = false /\
  log (snd (run 2 reentrant_start)) =
    opening_calls nat nat ++ [EvEpoch 0; EvCallHooks BeforeEpochs].
Proof. vm_compute. split; [reflexivity | split; reflexivity]. Qed.

(** A hook that calls [run()] and goes on: it has seen the error each
    time, and the outer run has returned. *)
Example nested_run_caught :
  fst (run 2 (with_hooks (mkHook 3%nat 1 LOGGING) (mkHook 200%nat 2 LOGGING))) = Ok tt /\
  world (snd (run 2 (with_hooks (mkHook 3%nat 1 LOGGING) (mkHook 200%nat 2 LOGGING)))) =
    [31; 200; 31; 200; 31; 200]%nat.
Proof. vm_compute. split; reflexivity. Qed.

(** A hook that raises after the first step. *)
Definition failing_start : State World nat nat nat :=
  with_hooks (mkHook 100%nat 1 LOGGING) (mkHook 2%nat 1 LOGGING).

Definition failed : State World nat nat nat :=
  Eval vm_compute in snd (run 2 failing_start).

Example failing_run :
  run 2 failing_start = (Raise (OtherError 2), failed) /\
  world failed = [100%nat].
Proof. split; [vm_compute; reflexivity | reflexivity]. Qed.

(** Registrations on a fresh trainer. *)
Definition fresh : State World nat nat nat := mkState (init nat) [] [].

Definition evaluate_after (evaluator : nat) (epochs steps : option positive)
  : M World nat nat nat unit :=
  Trainer.evaluate_after World nat nat nat callable getattr priority_value
    evaluator epochs steps.

Definition log_after (epochs steps : option positive) : M World nat nat nat unit :=
  Trainer.log_after World nat nat nat print_logs priority_value epochs steps.

Example evaluator_with_run_method :
  after_steps (trainer (snd (evaluate_after 9%nat None (Some 10%positive) fresh))) =
  mkHookList [mkHook 10%nat 10 EVALUATION] 0.
Proof. reflexivity. Qed.

Example callable_evaluator :
  after_epochs (trainer (snd (evaluate_after 5%nat (Some 2%positive) None fresh))) =
  mkHookList [mkHook 5%nat 2 EVALUATION] 0.
Proof. reflexivity. Qed.

Example both_epochs_and_steps :
  log_after (Some 5%positive) (Some 10%positive) fresh =
  (Raise one_and_only_one, fresh).
Proof. reflexivity. Qed.

Example neither_epochs_nor_steps :
  log_after None None fresh = (Raise one_and_only_one, fresh).
Proof. reflexivity. Qed.

(** Hooks run by ascending priority, whatever the order of their
    registration. *)
Example evaluation_before_logging :
  hooks (after_epochs (trainer (snd
    ((Trainer.bind World nat nat nat (log_after (Some 1%positive) None)
        (fun _ => evaluate_after 5%nat (Some 1%positive) None)) fresh)))) =
  [mkHook 5%nat 1 EVALUATION; mkHook print_logs 1 LOGGING].
Proof. reflexivity. Qed.

(** No object and no step of this trainer changes the hook lists. *)
Lemma hooks_left_alone : quiet World nat nat nat call _run_step.
Proof.
  split.
  - intros o w. destruct o as [|[|[|[|o]]]]; simpl; repeat constructor.
  - intros s p w. constructor.
Qed.

End Demo.

Lemma run_calls_witness :
  exists (sess : nat) (w1 w2 : Demo.World) (epochs : list (Z * list nat)),
    Demo.get_default_session_or_error (world Demo.start) = Ok sess /\
    Demo.succeed (world Demo.start) = (Ok tt, w1) /\
    Demo.succeed w1 = (Ok tt, w2) /\
    yields (Demo.iter_epochs w2) (map fst epochs) /\
    Forall (yielded_by_iter_steps Demo.World nat Demo._iter_steps)
           (map snd epochs) /\
    log Demo.finish =
      log Demo.start ++ opening_calls nat nat ++
      flat_map (epoch_calls nat nat sess) epochs /\
    _is_fitting (trainer Demo.finish) = false /\
    run Demo.World nat nat nat Demo.call Demo.get_default_session_or_error
      Demo.succeed Demo.succeed Demo.iter_epochs Demo._iter_steps
      Demo._run_step 2
      (mkState (reset_all (trainer Demo.start)) (world Demo.start)
               (log Demo.start)) =
      (Ok tt, Demo.finish).
Proof.
  apply (run_calls Demo.World nat nat nat Demo.call
           Demo.get_default_session_or_error Demo.succeed Demo.succeed
           Demo.iter_epochs Demo._iter_steps Demo._run_step 1
           Demo.start Demo.finish).
  vm_compute. reflexivity.
Defined.

Lemma run_counters_witness :
  exists (sess : nat) (epochs : list (Z * list nat)),
    log Demo.finish =
      log Demo.start ++ opening_calls nat nat ++
      flat_map (epoch_calls nat nat sess) epochs /\
    forall l,
      hooks (hook_list l (trainer Demo.finish)) =
        hooks (hook_list l (trainer Demo.start)) /\
      counter (hook_list l (trainer Demo.finish)) = triggers nat l epochs.
Proof.
  apply (run_counters Demo.World nat nat nat Demo.call
           Demo.get_default_session_or_error Demo.succeed Demo.succeed
           Demo.iter_epochs Demo._iter_steps Demo._run_step 1
           Demo.start Demo.finish Demo.hooks_left_alone).
  vm_compute. reflexivity.
Defined.

Lemma run_restores_idle_witness :
  _is_fitting (trainer Demo.failed) = false /\
  Raise (OtherError 2) =
    fst (run_body Demo.World nat nat nat Demo.call
           Demo.get_default_session_or_error Demo.succeed Demo.succeed
           Demo.iter_epochs Demo._iter_steps Demo._run_step
           (Demo.run 1)
           (entered Demo.World nat nat nat Demo.failing_start)).
Proof.
  apply (run_restores_idle Demo.World nat nat nat Demo.call
           Demo.get_default_session_or_error Demo.succeed Demo.succeed
           Demo.iter_epochs Demo._iter_steps Demo._run_step 1
           Demo.failing_start eq_refl (Raise (OtherError 2)) Demo.failed).
  vm_compute. reflexivity.
Defined.

(** A run entered while the trainer is idle that raises the
    re-entrancy error all the same: its before-epoch hook is
    [trainer.run], and the error of that call ends the run. *)
Lemma run_reentrancy_counterexample :
  _is_fitting (trainer Demo.reentrant_start) = false /\
  fst (run Demo.World nat nat nat Demo.call Demo.get_default_session_or_error
         Demo.succeed Demo.succeed Demo.iter_epochs Demo._iter_steps
         Demo._run_step 2 Demo.reentrant_start) =
    Raise not_reentrant.
Proof. split; [reflexivity | vm_compute; reflexivity]. Qed.

(** *** Runs that do not get to the steps *)

Module Cases.

(** No default session. *)
Definition no_session (w : Demo.World) : outcome nat :=
  Raise (RuntimeError "No session is active.").

(** [BaseTrainer._iter_steps], not overridden. *)
Definition base_iter_steps (w : Demo.World)
  : outcome (Demo.World -> gen Demo.World nat) * Demo.World :=
  (Raise NotImplementedError, w).

Definition no_epochs : Demo.World -> gen Demo.World Z := Demo.iter_list [].

Definition run_base (epochs : Demo.World -> gen Demo.World Z)
  : nat -> M Demo.World nat nat nat unit :=
  run Demo.World nat nat nat Demo.call Demo.get_default_session_or_error
    Demo.succeed Demo.succeed epochs base_iter_steps Demo._run_step.

Definition finish_base : State Demo.World nat nat nat :=
  Eval vm_compute in snd (run_base no_epochs 2 Demo.start).

Example base_trainer_with_epochs :
  fst (run_base Demo.iter_epochs 2 Demo.start) = Raise NotImplementedError /\
  log (snd (run_base Demo.iter_epochs 2 Demo.start)) =
    opening_calls nat nat ++
    [EvEpoch 0; EvCallHooks BeforeEpochs; EvIterSteps].
Proof. vm_compute. split; reflexivity. Qed.

(** *** Hooks that change the hooks *)

(** Object 5 calls [trainer.log_after_epochs(1)] and object 6 calls
    [trainer.remove_log_hooks()]; the other objects are as before. *)
Definition call (o : nat) (w : Demo.World) : action Demo.World nat :=
  match o with
  | 5%nat =>
    Touch (fun t => trainer (snd (Demo.log_after (Some 1%positive) None
                                    (mkState t w []))))
          (fun _ => Finish (Ok tt) w)
  | 6%nat =>
    Touch (fun t => trainer (snd (remove_log_hooks Demo.World nat nat nat
                                    (mkState t w []))))
          (fun _ => Finish (Ok tt) w)
  | n => Demo.call n w
  end.

Definition run_touching : nat -> M Demo.World nat nat nat unit :=
  run Demo.World nat nat nat call Demo.get_default_session_or_error
    Demo.succeed Demo.succeed Demo.iter_epochs Demo._iter_steps Demo._run_step.

(** A hook before every epoch that registers the log hook: the log
    hook (object 4) is there once more after each epoch, and the calls
    of the run are those of any run of three epochs of two steps. *)
Example hook_registers_a_hook :
  let st := Demo.with_hooks (mkHook 5%nat 1 LOGGING) (mkHook 200%nat 2 LOGGING) in
  fst (run_touching 2 st) = Ok tt /\
  hooks (after_epochs (trainer (snd (run_touching 2 st)))) =
    [mkHook 4%nat 1 LOGGING; mkHook 4%nat 1 LOGGING; mkHook 4%nat 1 LOGGING] /\
  world (snd (run_touching 2 st)) = [200; 4; 200; 4; 4; 200; 4; 4; 4]%nat /\
  log (snd (run_touching 2 st)) = log Demo.finish.
Proof. vm_compute. split; [|split; [|split]]; reflexivity. Qed.

(** A hook before every epoch that removes the log hooks: the step
    hook is gone before it has fired. *)
Example hook_removes_hooks :
  let st := Demo.with_hooks (mkHook 6%nat 1 EVALUATION) (mkHook 200%nat 2 LOGGING) in
  fst (run_touching 2 st) = Ok tt /\
  hooks (after_steps (trainer (snd (run_touching 2 st)))) = [] /\
  world (snd (run_touching 2 st)) = [] /\
  log (snd (run_touching 2 st)) = log Demo.finish.
Proof. vm_compute. split; [|split; [|split]]; reflexivity. Qed.

End Cases.

Lemma run_precondition_fails_witness :
  (Cases.no_session (world Demo.start) = Raise (RuntimeError "No session is active.") ->
   run Demo.World nat nat nat Demo.call Cases.no_session Demo.succeed Demo.succeed
     Demo.iter_epochs Demo._iter_steps Demo._run_step 2 Demo.start =
     (Raise (RuntimeError "No session is active."),
      mkState (trainer Demo.start) (world Demo.start)
              (log Demo.start ++ [EvGetSession]))) /\
  (forall sess w,
     Cases.no_session (world Demo.start) = Ok sess ->
     Demo.succeed (world Demo.start) =
       (Raise (RuntimeError "No session is active."), w) ->
     run Demo.World nat nat nat Demo.call Cases.no_session Demo.succeed Demo.succeed
       Demo.iter_epochs Demo._iter_steps Demo._run_step 2 Demo.start =
       (Raise (RuntimeError "No session is active."),
        mkState (trainer Demo.start) w
                (log Demo.start ++ [EvGetSession; EvEnsureInitialized]))).
Proof.
  exact (run_precondition_fails Demo.World nat nat nat Demo.call
           Cases.no_session Demo.succeed Demo.succeed Demo.iter_epochs
           Demo._iter_steps Demo._run_step 1 Demo.start
           (RuntimeError "No session is active.") eq_refl).
Defined.

Lemma base_iter_steps_raises :
  forall w, fst (Cases.base_iter_steps w) = Raise NotImplementedError.
Proof. intros w. reflexivity. Defined.

Lemma run_base_returns :
  run Demo.World nat nat nat Demo.call Demo.get_default_session_or_error
    Demo.succeed Demo.succeed Cases.no_epochs Cases.base_iter_steps
    Demo._run_step 2 Demo.start = (Ok tt, Cases.finish_base).
Proof. vm_compute. reflexivity. Defined.

Lemma run_without_iter_steps_witness :
  log Cases.finish_base = log Demo.start ++ opening_calls nat nat /\
  forall l, counter (hook_list l (trainer Cases.finish_base)) = 0.
Proof.
  exact (run_without_iter_steps Demo.World nat nat nat Demo.call
           Demo.get_default_session_or_error Demo.succeed Demo.succeed
           Cases.no_epochs Cases.base_iter_steps Demo._run_step 1
           Demo.start Cases.finish_base base_iter_steps_raises run_base_returns).
Defined.

Lemma run_protocol_witness :
  exists t c,
    log (snd (Demo.run 2 Demo.failing_start)) = log Demo.failing_start ++ t /\
    path nat nat
      (default_session Demo.World nat nat nat Demo.get_default_session_or_error
         Demo.failing_start) (Start nat) t c /\
    (fst (Demo.run 2 Demo.failing_start) = Ok tt -> c = BetweenEpochs nat).
Proof.
  exact (run_protocol Demo.World nat nat nat Demo.call
           Demo.get_default_session_or_error Demo.succeed Demo.succeed
           Demo.iter_epochs Demo._iter_steps Demo._run_step 1
           Demo.failing_start eq_refl).
Defined.

End Trainer.
